(** * Grid trading bot: rate limiter, ladder construction and lifecycle

    A shallow embedding of the Python sources of the grid trading bot
    (package [grid_trading], in its two copies: the full package and the
    reduced one under [scripts/]) and the properties of its specification.

    Conventions of the embedding.
    - Python [int] is [Z].  Python [float] (token counts, clock readings) and
      [Decimal] (prices, quantities) are rationals [Q]: arithmetic is exact,
      rounding is not modelled.  Equality of such values is [Qeq] ([==]).
    - A dict is a [gmap], a frozenset a [gset].
    - A call that may raise returns a [result]; the exception is a value of
      [py_exception], with the part of Python's class hierarchy that
      [except Exception] depends on.
    - Calls to the outside world (exchange, market price, logger) go through a
      state monad that threads the world and appends to a chronological trace.
    - asyncio tasks are a transition system whose steps are the code between
      two suspension points. *)

From Stdlib Require Import ZArith QArith Lia Lqa List Sorted.
From stdpp Require Import base option list gmap strings relations.

#[local] Open Scope Q_scope.

(** ** Python preliminaries *)

Module Py.

(** Exceptions raised in the modelled code.  The last two derive from
    [BaseException] only, the others from [Exception]. *)
Inductive py_exception : Type :=
  | ExchangeError
  | InsufficientFundsError
  | InvalidOrderError
  | ValueError (msg : string)
  | TypeError
  | AttributeError (attr : string)
  | ZeroDivisionError
  | DecimalDivisionByZero
  | DecimalInvalidOperation
  | OSError
  | CancelledError
  | KeyboardInterrupt.

(** [isinstance(e, Exception)] *)
Definition is_Exception (e : py_exception) : bool :=
  match e with
  | CancelledError | KeyboardInterrupt => false
  | _ => true
  end.

Inductive result (A : Type) : Type :=
  | Ok (a : A)
  | Raise (e : py_exception).
#[global] Arguments Ok {A} a.
#[global] Arguments Raise {A} e.

(** [x < y] on numbers *)
Definition Qltb (x y : Q) : bool := negb (Qle_bool y x).

(** [min(a, b)]: [b] when [b < a], else [a] *)
Definition py_min (a b : Q) : Q := if Qltb b a then b else a.

(** float division [x / y] *)
Definition float_div (x y : Q) : result Q :=
  if Qeq_bool y 0 then Raise ZeroDivisionError else Ok (x / y).

(** [Decimal] division [x / y] under the default context *)
Definition decimal_div (x y : Q) : result Q :=
  if Qeq_bool y 0
  then (if Qeq_bool x 0 then Raise DecimalInvalidOperation
        else Raise DecimalDivisionByZero)
  else Ok (x / y).

End Py.
Import Py.

(** ** utils/rate_limiter.py *)

(** The fields of a [RateLimiter] object other than its lock. *)
Record RateLimiter : Type := mkRateLimiter {
  max_requests : Z;
  time_window : Q;
  tokens : Q;
  last_update : Q
}.

(** The refill assignment shared by both copies:
    [time_passed = now - self.last_update],
    [self.tokens = min(self.max_requests,
                       self.tokens + time_passed * self.max_requests / self.time_window)],
    [self.last_update = now]. *)
Definition refill (self : RateLimiter) (now : Q) : result RateLimiter :=
  let time_passed := now - last_update self in
  match float_div (time_passed * inject_Z (max_requests self)) (time_window self) with
  | Raise e => Raise e
  | Ok added =>
      Ok {| max_requests := max_requests self;
            time_window := time_window self;
            tokens := py_min (inject_Z (max_requests self)) (tokens self + added);
            last_update := now |}
  end.

(** [self.tokens -= 1] *)
Definition take_token (self : RateLimiter) : RateLimiter :=
  {| max_requests := max_requests self;
     time_window := time_window self;
     tokens := tokens self - 1;
     last_update := last_update self |}.

(** What one call of [acquire] did, as far as its caller can tell. *)
Inductive acquired : Type :=
  | Returned (self : RateLimiter) (sleeps : nat)
  | Raised (e : py_exception)
  | Waiting (self : RateLimiter).

Module Scripts_RateLimiter.

(** [RateLimiter.__init__(max_requests, time_window)], the clock reading
    [now] at construction. *)
Definition init (max_requests : Z) (time_window now : Q) : RateLimiter :=
  {| max_requests := max_requests; time_window := time_window;
     tokens := inject_Z max_requests; last_update := now |}.

(** [acquire] of scripts/.../utils/rate_limiter.py, lines 13-26: one refill,
    then either a sleep of 0.1 s or the decrement. [now] is the reading of
    [time.monotonic()]. *)
Definition acquire (self : RateLimiter) (now : Q) : acquired :=
  match refill self now with
  | Raise e => Raised e
  | Ok self1 =>
      if Qltb (tokens self1) 1
      then Returned self1 1
      else Returned (take_token self1) 0
  end.

(** A sequence of calls, given the clock reading of each. *)
Fixpoint acquire_all (self : RateLimiter) (nows : list Q) : acquired :=
  match nows with
  | [] => Returned self 0
  | now :: rest =>
      match acquire self now with
      | Returned self1 k =>
          match acquire_all self1 rest with
          | Returned self2 k' => Returned self2 (k + k')
          | other => other
          end
      | other => other
      end
  end.

End Scripts_RateLimiter.

Module Full_RateLimiter.

(** [RateLimiter.__init__(max_requests, time_window, initial_tokens=None)]:
    [self.tokens = initial_tokens or max_requests]. *)
Definition init (max_requests : Z) (time_window : Q) (initial_tokens : option Z)
    (now : Q) : RateLimiter :=
  {| max_requests := max_requests; time_window := time_window;
     tokens := inject_Z (match initial_tokens with
                         | Some n => if (n =? 0)%Z then max_requests else n
                         | None => max_requests
                         end);
     last_update := now |}.

(** In the file the refill expression of lines 47-53 is cut in two, after
    [self.max], by two lines of the shell script that wrote the file (a comment
    and a [cat >> ... << 'EOL'] line). It is read here without them, as
    [self.tokens + (time_passed * self.max_requests / self.time_window)], the
    expression of the scripts copy. *)

(** The [while self.tokens <= 0] loop of lines 44-57. Each iteration reads the
    clock once: [nows] are the successive readings. [sleeps] counts the sleeps
    of 0.1 s done so far. The loop is still [Waiting] when the readings are
    used up. *)
Fixpoint wait_loop (self : RateLimiter) (nows : list Q) (sleeps : nat) : acquired :=
  if Qle_bool (tokens self) 0 then
    match nows with
    | [] => Waiting self
    | now :: rest =>
        match refill self now with
        | Raise e => Raised e
        | Ok self1 =>
            if Qle_bool (tokens self1) 0
            then wait_loop self1 rest (S sleeps)
            else wait_loop self1 rest sleeps
        end
    end
  else Returned self sleeps.

(** [acquire], lines 41-59: the loop, then [self.tokens -= 1]. *)
Definition acquire (self : RateLimiter) (nows : list Q) : acquired :=
  match wait_loop self nows 0 with
  | Returned self1 sleeps => Returned (take_token self1) sleeps
  | other => other
  end.

End Full_RateLimiter.

(** ** The outside world and the effect monad *)

(** [side] is one of the strings ['buy'] and ['sell']. *)
Inductive Side : Type := buy | sell.

(** What the logger is given. *)
Inductive log_message : Type :=
  | MsgInitializing (symbol : string)
  | MsgPlaced (side : Side) (price : Q) (order_id : string)
  | MsgPlaceError (side : Side) (price : Q) (e : py_exception)
  | MsgStartError (e : py_exception).

(** The observable calls, in the order they happen; a placement with the
    exchange's answer. *)
Inductive event : Type :=
  | EvCurrentPrice (price : Q)
  | EvPlaceLimitOrder (symbol : string) (side : Side) (price quantity : Q)
      (answer : result string)
  | EvCancelOrder (symbol order_id : string)
  | EvLogInfo (msg : log_message)
  | EvLogError (msg : log_message)
  | EvConsolePrint (msg : log_message).

(** core/exchange.py, [ExchangeInterface]: the calls the strategies make, on a
    world of type [W]. [_get_current_price] is called by
    [GridTradingStrategy.initialize] and defined nowhere in the package; it is
    a field here, a read of the market that returns a price. *)
Class ExchangeInterface (W : Type) : Type := {
  place_limit_order : string -> Side -> Q -> Q -> W -> result string * W;
  cancel_order : string -> string -> W -> result bool * W;
  _get_current_price : W -> Q * W
}.

Record env (W : Type) : Type := mkEnv { world : W; trace : list event }.
#[global] Arguments mkEnv {W} world trace.
#[global] Arguments world {W} e.
#[global] Arguments trace {W} e.

Definition M (W A : Type) : Type := env W -> result A * env W.

#[global] Instance M_ret {W} : MRet (M W) := fun A a e => (Ok a, e).
#[global] Instance M_bind {W} : MBind (M W) := fun A B f m e =>
  match m e with
  | (Ok a, e1) => f a e1
  | (Raise x, e1) => (Raise x, e1)
  end.

Definition raise {W A} (x : py_exception) : M W A := fun e => (Raise x, e).

Definition lift {W A} (r : result A) : M W A := fun e => (r, e).

Definition emit {W} (ev : event) : M W unit :=
  fun e => (Ok tt, mkEnv (world e) (trace e ++ [ev])).

(** [try: body except Exception as e: handler(e)] *)
Definition try_except_Exception {W A} (body : M W A) (handler : py_exception -> M W A)
    : M W A := fun e =>
  match body e with
  | (Ok a, e1) => (Ok a, e1)
  | (Raise x, e1) => if is_Exception x then handler x e1 else (Raise x, e1)
  end.

(** [for i in range(n): body(i)] *)
Definition py_range (n : Z) : list Z := map Z.of_nat (seq 0 (Z.to_nat n)).

Fixpoint for_each {W A} (l : list A) (body : A -> M W unit) : M W unit :=
  match l with
  | [] => mret tt
  | a :: rest => body a ;; for_each rest body
  end.

Definition logger_info {W} (msg : log_message) : M W unit := emit (EvLogInfo msg).
Definition logger_error {W} (msg : log_message) : M W unit := emit (EvLogError msg).

(** [await self.exchange.place_limit_order(symbol, side, price, quantity)] *)
Definition exchange_place_limit_order {W} `{ExchangeInterface W}
    (symbol : string) (side : Side) (price quantity : Q) : M W string := fun e =>
  let '(r, w) := place_limit_order symbol side price quantity (world e) in
  (r, mkEnv w (trace e ++ [EvPlaceLimitOrder symbol side price quantity r])).

(** [await self._get_current_price()] *)
Definition get_current_price {W} `{ExchangeInterface W} : M W Q := fun e =>
  let '(p, w) := _get_current_price (world e) in
  (Ok p, mkEnv w (trace e ++ [EvCurrentPrice p])).

(** ** database/models.py *)

Inductive order_status : Type := pending | filled | cancelled.

Record GridConfig : Type := mkGridConfig {
  symbol : string;
  grid_size : Z;
  upper_price : Q;
  lower_price : Q;
  quantity_per_order : Q
}.

Record Order : Type := mkOrder {
  exchange_order_id : string;
  side : Side;
  price : Q;
  quantity : Q;
  status : order_status
}.

(** ** core/strategy.py and strategies/grid.py *)

(** The attributes set by [GridTradingStrategy.__init__]; the exchange is the
    world of the monad. *)
Record GridTradingStrategy : Type := mkGridTradingStrategy {
  config : GridConfig;
  price_update_interval : Q;
  active_orders : gmap string Order;
  is_running : bool
}.

(** [TradingStrategy]: every method is abstract and its body is [pass]. *)
Module TradingStrategy.
Definition initialize {W S} (self : S) : M W unit := mret tt.
Definition start {W S} (self : S) : M W unit := mret tt.
Definition stop {W S} (self : S) : M W unit := mret tt.
Definition on_price_update {W S} (self : S) (price : Q) : M W unit := mret tt.
Definition on_order_filled {W S} (self : S) (order : Order) : M W unit := mret tt.
End TradingStrategy.

Section GridTradingStrategy.
Context {W : Type} `{ExchangeInterface W}.

(** [_place_grid_order], lines 58-69 *)
Definition _place_grid_order (self : GridTradingStrategy) (side : Side) (price : Q)
    : M W unit :=
  try_except_Exception
    (order_id ← exchange_place_limit_order
                  (symbol (config self)) side price (quantity_per_order (config self));
     logger_info (MsgPlaced side price order_id))
    (fun e => logger_error (MsgPlaceError side price e)).

(** The body of the loop of [initialize], lines 50-56 *)
Definition place_level (self : GridTradingStrategy) (price_step : Q) (i : Z) : M W unit :=
  let price := lower_price (config self) + price_step * inject_Z i in
  current_price ← get_current_price;
  if Qltb price current_price
  then _place_grid_order self buy price
  else _place_grid_order self sell price.

(** [initialize], lines 41-56 *)
Definition initialize (self : GridTradingStrategy) : M W unit :=
  logger_info (MsgInitializing (symbol (config self))) ;;
  price_step ← lift (decimal_div
                       (upper_price (config self) - lower_price (config self))
                       (inject_Z (grid_size (config self) - 1)));
  for_each (py_range (grid_size (config self))) (place_level self price_step).

End GridTradingStrategy.

(** ** Abstract base classes *)

(** How a name is bound in a class body: decorated with [@abstractmethod] or
    not. *)
Inductive method_kind : Type := abstract_method | concrete_method.

#[global] Instance method_kind_eq_dec : EqDecision method_kind.
Proof. solve_decision. Defined.

(** A class created by [ABCMeta]: its own namespace, the namespaces of the rest
    of its method resolution order, and [__abstractmethods__]. *)
Record py_class : Type := mkClass {
  class_name : string;
  namespace : gmap string method_kind;
  bases_mro : list (gmap string method_kind);
  abstractmethods : gset string
}.

(** [getattr(cls, name, None)]: the first namespace of the resolution order
    that binds [name]. *)
Fixpoint mro_lookup (mro : list (gmap string method_kind)) (name : string)
    : option method_kind :=
  match mro with
  | [] => None
  | ns :: rest =>
      match ns !! name with
      | Some k => Some k
      | None => mro_lookup rest name
      end
  end.

(** [ABCMeta.__new__] for a class with at most one base: the abstract names
    are those bound abstract in the class body, and those abstract in the base
    that still resolve to an abstract method. *)
Definition ABCMeta_new (name : string) (base : option py_class)
    (body : list (string * method_kind)) : py_class :=
  let ns : gmap string method_kind := list_to_map body in
  let tail := match base with
              | Some b => namespace b :: bases_mro b
              | None => []
              end in
  let inherited : gset string := match base with
                                 | Some b => abstractmethods b
                                 | None => ∅
                                 end in
  {| class_name := name;
     namespace := ns;
     bases_mro := tail;
     abstractmethods :=
       dom (filter (fun kv => kv.2 = abstract_method) ns)
       ∪ filter (fun n => mro_lookup (ns :: tail) n = Some abstract_method) inherited |}.

(** [object.__new__]: a class with abstract methods left cannot be
    instantiated; otherwise [__init__] builds the attributes. *)
Definition instantiate {W A} (cls : py_class) (init : A) : M W A :=
  if decide (abstractmethods cls = ∅) then mret init else raise TypeError.

Definition ABC : py_class := ABCMeta_new "ABC" None [].

Definition TradingStrategy_class : py_class :=
  ABCMeta_new "TradingStrategy" (Some ABC)
    [("initialize", abstract_method); ("start", abstract_method);
     ("stop", abstract_method); ("on_price_update", abstract_method);
     ("on_order_filled", abstract_method)].

Definition GridTradingStrategy_class : py_class :=
  ABCMeta_new "GridTradingStrategy" (Some TradingStrategy_class)
    [("__init__", concrete_method); ("initialize", concrete_method);
     ("_place_grid_order", concrete_method)].

Definition ExchangeInterface_class : py_class :=
  ABCMeta_new "ExchangeInterface" (Some ABC)
    [("get_order_book", abstract_method); ("place_limit_order", abstract_method);
     ("cancel_order", abstract_method); ("get_account_balance", abstract_method);
     ("get_ticker", abstract_method)].

Definition CoinbaseExchange_class : py_class :=
  ABCMeta_new "CoinbaseExchange" (Some ExchangeInterface_class)
    [("__init__", concrete_method); ("_sign_request", concrete_method);
     ("get_order_book", concrete_method); ("place_limit_order", concrete_method)].

(** [GridTradingStrategy(exchange, config, price_update_interval)] *)
Definition new_GridTradingStrategy {W} (config : GridConfig)
    (price_update_interval : Q) : M W GridTradingStrategy :=
  instantiate GridTradingStrategy_class
    {| config := config; price_update_interval := price_update_interval;
       active_orders := ∅; is_running := false |}.

(** The method that [strategy.name(...)] resolves to on a
    [GridTradingStrategy]: its own [initialize], the inherited bodies for the
    four names it does not define. *)
Definition GridTradingStrategy_on_order_filled {W}
    (self : GridTradingStrategy) (order : Order) : M W unit :=
  match namespace GridTradingStrategy_class !! "on_order_filled" with
  | Some _ => mret tt
  | None => TradingStrategy.on_order_filled self order
  end.

(** ** scripts: strategies/grid.py *)

Module Scripts_GridStrategy.

(** The columns of [GridConfig] in scripts database/models.py that the
    application sets. *)
Record GridConfig : Type := mkGridConfig {
  symbol : string;
  grid_size : Z
}.

(** The attributes set by [GridStrategy.__init__]. *)
Record GridStrategy : Type := mkGridStrategy {
  config : GridConfig;
  check_interval : Q;
  active_orders : gmap string string;
  is_running : bool
}.

(** [stop], lines 28-29: [self.is_running = False] *)
Definition stop {W} (self : GridStrategy) : M W GridStrategy :=
  mret {| config := config self; check_interval := check_interval self;
          active_orders := active_orders self; is_running := false |}.

End Scripts_GridStrategy.

(** ** Configuration validation *)

(** pydantic collects the messages of the validators that fail and raises one
    error, a [ValueError], that carries them. *)
Definition validation_error (msgs : list string) : py_exception :=
  ValueError (String.concat "; " msgs).

(** scripts: utils/validation.py *)
Module Scripts_validation.

(** [validate_grid_size], lines 13-17 *)
Definition validate_grid_size (v : Z) : result Z :=
  if (v <? 2)%Z then Raise (ValueError "Grid size must be at least 2") else Ok v.

(** [GridConfig(symbol=..., grid_size=..., upper_price=..., lower_price=...,
    quantity_per_order=...)] on values of the declared types *)
Definition new_GridConfig (symbol : string) (grid_size : Z)
    (upper_price lower_price quantity_per_order : Q) : result GridConfig :=
  match validate_grid_size grid_size with
  | Ok v => Ok {| symbol := symbol; grid_size := v; upper_price := upper_price;
                  lower_price := lower_price;
                  quantity_per_order := quantity_per_order |}
  | Raise (ValueError msg) => Raise (validation_error [msg])
  | Raise e => Raise e
  end.

End Scripts_validation.

(** config/loader.py *)
Module loader.

Record GridConfig : Type := mkGridConfig {
  trading_pair : string;
  grid_size : Z;
  grid_spread : Q;
  base_order_size : Q;
  check_interval : Z
}.

(** [validate_grid_size], lines 36-40 *)
Definition validate_grid_size (v : Z) : result Z :=
  if (v <? 2)%Z then Raise (ValueError "grid_size must be at least 2") else Ok v.

(** [validate_grid_spread], lines 42-46: [if not 0 < v < 1] *)
Definition validate_grid_spread (v : Q) : result Q :=
  if negb (Qltb 0 v && Qltb v 1)
  then Raise (ValueError "grid_spread must be between 0 and 1") else Ok v.

Definition messages {A} (r : result A) : list string :=
  match r with
  | Raise (ValueError msg) => [msg]
  | _ => []
  end.

(** [GridConfig(trading_pair=..., grid_size=..., grid_spread=...,
    base_order_size=..., check_interval=...)] on values of the declared types *)
Definition new_GridConfig (trading_pair : string) (grid_size : Z)
    (grid_spread base_order_size : Q) (check_interval : Z) : result GridConfig :=
  match validate_grid_size grid_size, validate_grid_spread grid_spread with
  | Ok n, Ok s => Ok {| trading_pair := trading_pair; grid_size := n;
                        grid_spread := s; base_order_size := base_order_size;
                        check_interval := check_interval |}
  | r1, r2 => Raise (validation_error (messages r1 ++ messages r2))
  end.

Record ExchangeConfig : Type := mkExchangeConfig {
  api_key : string;
  api_secret : string;
  base_url : string;
  rate_limit : Z
}.

Record Config : Type := mkConfig {
  exchange : ExchangeConfig;
  grid : GridConfig
}.

End loader.

(** ** cli.py *)

(** The [start] command, lines 38-60. [loaded] is what [load_config] gives
    for the file named on the command line. *)
Definition cli_start {W} (loaded : result loader.Config) : M W unit :=
  try_except_Exception
    (cfg ← lift loaded;
     exchange ← instantiate CoinbaseExchange_class (loader.exchange cfg);
     strategy ← instantiate GridTradingStrategy_class (loader.grid cfg);
     TradingStrategy.start strategy)
    (fun e => emit (EvConsolePrint (MsgStartError e))).

(** ** Concurrent callers of [acquire] *)

(** asyncio runs one task at a time and switches task only at an [await] that
    suspends: waiting for the lock and [asyncio.sleep]. A task that calls
    [acquire] is at one of these points. *)
Inductive version : Type := scripts_copy | full_copy.

Inductive pc : Type :=
  | Start                      (* about to enter [async with self.lock] *)
  | Critical                   (* inside the block, the lock taken *)
  | Sleeping (wake : Q)        (* inside [await asyncio.sleep(0.1)] *)
  | Finished                   (* [acquire] has returned *)
  | Failed (e : py_exception). (* [acquire] has raised *)

Record system : Type := mkSystem {
  limiter : RateLimiter;
  lock : option nat;           (* the task that holds [self.lock] *)
  clock : Q;                   (* [time.monotonic()] *)
  tasks : list pc
}.

Definition move (s : system) (i : nat) (rl : RateLimiter) (holder : option nat)
    (p : pc) : system :=
  {| limiter := rl; lock := holder; clock := clock s; tasks := <[i := p]> (tasks s) |}.

(** The code of [acquire] from the lock taken to the next suspension point or
    to the end of the [async with] block, which releases the lock (also when
    the block raises). *)
Definition critical_step (v : version) (i : nat) (s : system) : system :=
  match v with
  | scripts_copy =>
      match refill (limiter s) (clock s) with
      | Raise e => move s i (limiter s) None (Failed e)
      | Ok rl =>
          if Qltb (tokens rl) 1
          then move s i rl (lock s) (Sleeping (clock s + (1 # 10)))
          else move s i (take_token rl) None Finished
      end
  | full_copy =>
      if Qle_bool (tokens (limiter s)) 0 then
        match refill (limiter s) (clock s) with
        | Raise e => move s i (limiter s) None (Failed e)
        | Ok rl =>
            if Qle_bool (tokens rl) 0
            then move s i rl (lock s) (Sleeping (clock s + (1 # 10)))
            else move s i rl (lock s) Critical
        end
      else move s i (take_token (limiter s)) None Finished
  end.

(** After the sleep: the scripts copy leaves the block and returns, the full
    copy is back at the head of its loop. *)
Definition wake_step (v : version) (i : nat) (s : system) : system :=
  match v with
  | scripts_copy => move s i (limiter s) None Finished
  | full_copy => move s i (limiter s) (lock s) Critical
  end.

(** One step of task [i], if it can run. *)
Definition task_step (v : version) (i : nat) (s : system) : option system :=
  match tasks s !! i with
  | Some Start =>
      match lock s with
      | None => Some (move s i (limiter s) (Some i) Critical)
      | Some _ => None
      end
  | Some Critical => Some (critical_step v i s)
  | Some (Sleeping wake) =>
      if Qle_bool wake (clock s) then Some (wake_step v i s) else None
  | _ => None
  end.

(** Time passes. *)
Definition tick (d : Q) (s : system) : system :=
  {| limiter := limiter s; lock := lock s; clock := clock s + d; tasks := tasks s |}.

Inductive step (v : version) : system -> system -> Prop :=
  | step_task i s s' : task_step v i s = Some s' -> step v s s'
  | step_tick d s : 0 <= d -> step v s (tick d s).

Definition reachable (v : version) (s0 s : system) : Prop := rtc (step v) s0 s.

(** The tasks of [schedule] run one step each, in that order. *)
Fixpoint run_schedule (v : version) (schedule : list nat) (s : system) : option system :=
  match schedule with
  | [] => Some s
  | i :: rest =>
      match task_step v i s with
      | Some s1 => run_schedule v rest s1
      | None => None
      end
  end.

(** A task inside the [async with] block holds the lock. *)
Definition inside_holds_lock (s : system) : Prop :=
  forall i, tasks s !! i = Some Critical \/ (exists wake, tasks s !! i = Some (Sleeping wake)) ->
            lock s = Some i.

(** [n] tasks about to call [acquire] on a limiter just constructed. *)
Definition fresh_system (rl : RateLimiter) (now : Q) (n : nat) : system :=
  {| limiter := rl; lock := None; clock := now; tasks := replicate n Start |}.

(** ** Reading a trace *)

(** The order placements asked of the exchange: side and price. *)
Definition requests (tr : list event) : list (Side * Q) :=
  omap (fun ev => match ev with
                  | EvPlaceLimitOrder _ s p _ _ => Some (s, p)
                  | _ => None
                  end) tr.

(** The market prices read. *)
Definition observations (tr : list event) : list Q :=
  omap (fun ev => match ev with EvCurrentPrice p => Some p | _ => None end) tr.

(** The placements reported to [logger.error]. *)
Definition error_log (tr : list event) : list (Side * Q * py_exception) :=
  omap (fun ev => match ev with
                  | EvLogError (MsgPlaceError s p x) => Some (s, p, x)
                  | _ => None
                  end) tr.

(** The cancellations asked of the exchange. *)
Definition cancellations (tr : list event) : list string :=
  omap (fun ev => match ev with EvCancelOrder _ id => Some id | _ => None end) tr.

(** The price of level [i] as [initialize] computes it. *)
Definition level_price (cfg : GridConfig) (i : Z) : Q :=
  lower_price cfg
  + (upper_price cfg - lower_price cfg) / inject_Z (grid_size cfg - 1) * inject_Z i.

(** The events of one turn of the loop of [initialize] when the market price
    read is [p] and the exchange answers [r]. *)
Definition level_events (cfg : GridConfig) (i : Z) (p : Q) (r : result string)
    : list event :=
  let price := level_price cfg i in
  let s := if Qltb price p then buy else sell in
  [EvCurrentPrice p;
   EvPlaceLimitOrder (symbol cfg) s price (quantity_per_order cfg) r;
   match r with
   | Ok order_id => EvLogInfo (MsgPlaced s price order_id)
   | Raise x => EvLogError (MsgPlaceError s price x)
   end].

(** The traces made of one such turn per index. *)
Inductive ladder_trace (cfg : GridConfig) : list Z -> list event -> Prop :=
  | ladder_nil : ladder_trace cfg [] []
  | ladder_cons i l p r tr :
      ladder_trace cfg l tr ->
      ladder_trace cfg (i :: l) (level_events cfg i p r ++ tr).

(** The placements the exchange answered with an exception. *)
Definition failed_requests (tr : list event) : list (Side * Q * py_exception) :=
  omap (fun ev => match ev with
                  | EvPlaceLimitOrder _ s p _ (Raise x) => Some (s, p, x)
                  | _ => None
                  end) tr.

(** The exchange raises nothing but instances of [Exception]. *)
Definition raises_only_Exception (W : Type) `{ExchangeInterface W} : Prop :=
  forall sym s p q w x,
    (place_limit_order sym s p q w).1 = Raise x -> is_Exception x = true.

(** A limiter whose fields make sense. *)
Definition well_formed (self : RateLimiter) : Prop :=
  0 < time_window self /\ (0 <= max_requests self)%Z.

(** The token count is between zero and the capacity. *)
Definition within_capacity (self : RateLimiter) : Prop :=
  0 <= tokens self /\ tokens self <= inject_Z (max_requests self).

(** ** Concrete inputs *)

(** [grid_size=5, lower=100, upper=200] *)
Definition five_levels : GridConfig :=
  {| symbol := "BTC-USD"; grid_size := 5; upper_price := 200; lower_price := 100;
     quantity_per_order := 1 |}.

Definition five_level_strategy : GridTradingStrategy :=
  {| config := five_levels; price_update_interval := 1; active_orders := ∅;
     is_running := true |}.

(** A market given by the prices it will show, the last one for ever; the
    exchange accepts buys and answers sells with [InsufficientFundsError]
    when [w_funds] is [false]. *)
Record scripted_world : Type := mkWorld {
  w_prices : list Q;
  w_last : Q;
  w_funds : bool;
  w_placed : nat
}.

#[global] Instance scripted_exchange : ExchangeInterface scripted_world := {
  place_limit_order sym s p q w :=
    let w' := {| w_prices := w_prices w; w_last := w_last w; w_funds := w_funds w;
                 w_placed := S (w_placed w) |} in
    match s with
    | sell => if w_funds w then (Ok "order", w') else (Raise InsufficientFundsError, w)
    | buy => (Ok "order", w')
    end;
  cancel_order sym id w := (Ok true, w);
  _get_current_price w :=
    match w_prices w with
    | [] => (w_last w, w)
    | p :: rest => (p, {| w_prices := rest; w_last := p; w_funds := w_funds w;
                          w_placed := w_placed w |})
    end
}.

(** The market stays at 140. *)
Definition steady_market : scripted_world :=
  {| w_prices := []; w_last := 140; w_funds := true; w_placed := 0 |}.

(** The market shows 140, then 110, then 160. *)
Definition moving_market : scripted_world :=
  {| w_prices := [140; 110; 160]; w_last := 160; w_funds := true; w_placed := 0 |}.

(** The market stays at 140 and the account cannot sell. *)
Definition no_funds_market : scripted_world :=
  {| w_prices := []; w_last := 140; w_funds := false; w_placed := 0 |}.

(** A buy order of level 1 (price 125) that has been filled. *)
Definition filled_buy : Order :=
  {| exchange_order_id := "order-1"; side := buy; price := 125; quantity := 1;
     status := filled |}.

(** A running scripts strategy with one order resting at 125. *)
Definition running_with_order : Scripts_GridStrategy.GridStrategy :=
  {| Scripts_GridStrategy.config := Scripts_GridStrategy.mkGridConfig "BTC-USD" 5;
     Scripts_GridStrategy.check_interval := 1;
     Scripts_GridStrategy.active_orders := {[ "125" := "order-1" ]};
     Scripts_GridStrategy.is_running := true |}.

(** [RateLimiter(1, 1.0)] constructed at time 0. *)
Definition one_per_second : RateLimiter := Scripts_RateLimiter.init 1 1 0.

(** ** monitoring/metrics.py *)

Module metrics.

(** The dict that [add_trade] appends to [self.trades]; a [datetime] is a
    number of seconds. *)
Record trade : Type := mkTrade {
  price : Q;
  quantity : Q;
  side : string;
  timestamp : Z;
  fees : Q
}.

(** The attributes of a [MetricsCollector]. *)
Record MetricsCollector : Type := mkMetricsCollector {
  trades : list trade;
  current_balance : Q;
  peak_balance : Q
}.

(** [MetricsCollector.__init__], lines 34-38 *)
Definition init : MetricsCollector :=
  {| trades := []; current_balance := 0; peak_balance := 0 |}.

(** [add_trade], lines 40-67, given the trade's five arguments as a record *)
Definition add_trade (self : MetricsCollector) (t : trade) : MetricsCollector :=
  let trade_value := price t * quantity t in
  let balance :=
    if String.eqb (side t) "buy"
    then current_balance self - (trade_value + fees t)
    else current_balance self + (trade_value - fees t) in
  {| trades := trades self ++ [t];
     current_balance := balance;
     peak_balance := if Qltb (peak_balance self) balance
                     then balance else peak_balance self |}.

(** Successive calls of [add_trade]. *)
Definition add_trades (self : MetricsCollector) (l : list trade) : MetricsCollector :=
  fold_left add_trade l self.

(** What one trade adds to the balance. *)
Definition balance_change (t : trade) : Q :=
  if String.eqb (side t) "buy"
  then - (price t * quantity t + fees t)
  else price t * quantity t - fees t.

Definition total_change (l : list trade) : Q :=
  fold_right (fun t acc => balance_change t + acc) 0 l.

End metrics.

(** A sequence of calls of the full copy's [acquire], given the clock
    readings available to each. *)
Fixpoint Full_acquire_all (self : RateLimiter) (calls : list (list Q)) : acquired :=
  match calls with
  | [] => Returned self 0
  | nows :: rest =>
      match Full_RateLimiter.acquire self nows with
      | Returned self1 k =>
          match Full_acquire_all self1 rest with
          | Returned self2 k' => Returned self2 (k + k')
          | other => other
          end
      | other => other
      end
  end.

(** An exchange on which every placement is interrupted by the cancellation
    of the calling task; the market stays at 140. *)
Inductive cancelling_world : Type := Cancelling.

#[global] Instance cancelling_exchange : ExchangeInterface cancelling_world := {
  place_limit_order sym s p q w := (Raise CancelledError, w);
  cancel_order sym id w := (Raise CancelledError, w);
  _get_current_price w := (140, w)
}.

(** Task [i] is inside the [async with] block. *)
Definition inside (s : system) (i : nat) : Prop :=
  tasks s !! i = Some Critical \/ exists wake, tasks s !! i = Some (Sleeping wake).

(** The lock is held by a task that is inside the block. *)
Definition lock_held_by_insider (s : system) : Prop :=
  forall i, lock s = Some i -> inside s i.

(** The limiter's fields make sense, its count is above [low] and at most the
    capacity, and its last refill is not in the future. *)
Definition limiter_sane (low : Q) (s : system) : Prop :=
  well_formed (limiter s)
  /\ low <= tokens (limiter s)
  /\ tokens (limiter s) <= inject_Z (max_requests (limiter s))
  /\ last_update (limiter s) <= clock s.

(** ** scripts: core/exchange.py, exchanges/coinbase.py, utils/rate_limiter.py
    as classes *)

Definition Scripts_ExchangeInterface_class : py_class :=
  ABCMeta_new "ExchangeInterface" (Some ABC)
    [("get_order_book", abstract_method); ("place_limit_order", abstract_method)].

Definition Scripts_CoinbaseExchange_class : py_class :=
  ABCMeta_new "CoinbaseExchange" (Some Scripts_ExchangeInterface_class)
    [("__init__", concrete_method); ("__aenter__", concrete_method);
     ("__aexit__", concrete_method); ("get_order_book", concrete_method);
     ("place_limit_order", concrete_method)].

(** The awaitable methods of a [RateLimiter] class by name; a method is
    given the limiter and the clock readings to come. *)
Definition Scripts_RateLimiter_methods
    : gmap string (RateLimiter -> list Q -> acquired) :=
  {[ "acquire" := fun self nows =>
                    match nows with
                    | now :: _ => Scripts_RateLimiter.acquire self now
                    | [] => Waiting self
                    end ]}.

(** [__aenter__] of the full copy, lines 61-64: [await self.acquire()],
    [return self]. *)
Definition Full_aenter (self : RateLimiter) (nows : list Q) : acquired :=
  Full_RateLimiter.acquire self nows.

(** [__aexit__] of the full copy, lines 66-68: [pass]. *)
Definition Full_aexit (self : RateLimiter) (nows : list Q) : acquired :=
  Returned self 0.

Definition Full_RateLimiter_methods
    : gmap string (RateLimiter -> list Q -> acquired) :=
  {[ "acquire" := Full_RateLimiter.acquire;
     "__aenter__" := Full_aenter;
     "__aexit__" := Full_aexit ]}.

(** [async with mgr: pass] for a manager with the methods [methods]. The
    statement looks [__aenter__] and [__aexit__] up on the class before it
    calls either and raises when one is missing ([TypeError] since Python
    3.11, [AttributeError] before). *)
Definition async_with_pass (methods : gmap string (RateLimiter -> list Q -> acquired))
    (mgr : RateLimiter) (nows : list Q) : acquired :=
  match methods !! "__aenter__", methods !! "__aexit__" with
  | Some aenter, Some aexit =>
      match aenter mgr nows with
      | Returned mgr1 k =>
          match aexit mgr1 [] with
          | Returned mgr2 k' => Returned mgr2 (k + k')
          | other => other
          end
      | other => other
      end
  | _, _ => Raised TypeError
  end.

(** [CoinbaseExchange.get_order_book] and [place_limit_order] of the full
    package, lines 59-75: [async with self.rate_limiter: pass]. *)
Definition Full_Coinbase_call (rate_limiter : RateLimiter) (nows : list Q) : acquired :=
  async_with_pass Full_RateLimiter_methods rate_limiter nows.

(** The same two methods of the scripts copy, lines 27-38, on the scripts
    [RateLimiter]. *)
Definition Scripts_Coinbase_call (rate_limiter : RateLimiter) (nows : list Q) : acquired :=
  async_with_pass Scripts_RateLimiter_methods rate_limiter nows.

(** ** database/connection.py *)

Module database.

(** The calls made on the session factory and the session. *)
Inductive db_call : Type := SessionLocal | commit | rollback | close.

(** A session's three operations on a database of type [W]; each may raise. *)
Class SessionInterface (W : Type) : Type := {
  session_commit : W -> result unit * W;
  session_rollback : W -> result unit * W;
  session_close : W -> result unit * W
}.

Record db_env (W : Type) : Type := mkDb { db_world : W; db_calls : list db_call }.
#[global] Arguments mkDb {W} db_world db_calls.
#[global] Arguments db_world {W} d.
#[global] Arguments db_calls {W} d.

Definition DB (W A : Type) : Type := db_env W -> result A * db_env W.

Definition call {W} (c : db_call) (op : W -> result unit * W) : DB W unit := fun st =>
  let '(r, w) := op (db_world st) in (r, mkDb w (db_calls st ++ [c])).

(** [with db.get_session() as session: body], the generator of lines 44-55
    driven by [contextlib.contextmanager]: an exception of the body is raised
    at the [yield]. [catches] is the class the [except] clause names. *)
Definition with_session {W A} `{SessionInterface W} (catches : py_exception -> bool)
    (body : DB W A) : DB W A := fun st =>
  (* session = self.SessionLocal() *)
  let st0 := mkDb (db_world st) (db_calls st ++ [SessionLocal]) in
  (* try: yield session; session.commit() *)
  let '(r1, st1) :=
    match body st0 with
    | (Ok a, sb) =>
        match call commit session_commit sb with
        | (Ok _, sc) => (Ok a, sc)
        | (Raise y, sc) => (Raise y, sc)
        end
    | (Raise x, sb) => (Raise x, sb)
    end in
  (* except ...: session.rollback(); raise *)
  let '(r2, st2) :=
    match r1 with
    | Ok a => (Ok a, st1)
    | Raise x =>
        if catches x
        then match call rollback session_rollback st1 with
             | (Ok _, sr) => (Raise x, sr)
             | (Raise y, sr) => (Raise y, sr)
             end
        else (Raise x, st1)
    end in
  (* finally: session.close() *)
  match call close session_close st2 with
  | (Ok _, s3) => (r2, s3)
  | (Raise z, s3) => (Raise z, s3)
  end.

(** [DatabaseConnection.get_session] of the full package: [except Exception] *)
Definition get_session {W A} `{SessionInterface W} (body : DB W A) : DB W A :=
  with_session is_Exception body.

(** [DatabaseConnection.session] of the scripts copy: a bare [except:] *)
Definition session {W A} `{SessionInterface W} (body : DB W A) : DB W A :=
  with_session (fun _ => true) body.

(** A database on which every operation succeeds. *)
Inductive healthy_db : Type := Healthy.

#[global] Instance healthy_session : SessionInterface healthy_db := {
  session_commit w := (Ok tt, w);
  session_rollback w := (Ok tt, w);
  session_close w := (Ok tt, w)
}.

End database.

(** ** config/loader.py: [load_config] up to the validation *)

Module load_config.

(** What [yaml.safe_load] gives for a configuration file: nothing for an
    empty file, else a mapping whose values are scalars or mappings of
    scalars (the sections). *)
Inductive yaml_scalar : Type :=
  | YStr (s : string) | YInt (z : Z) | YFloat (q : Q) | YBool (b : bool) | YNull.

Inductive yaml_value : Type :=
  | YScalar (v : yaml_scalar)
  | YMap (m : gmap string yaml_scalar).

Inductive yaml_document : Type :=
  | YEmpty
  | YDocument (d : gmap string yaml_value).

(** The two ways the subscripts of lines 82 and 84 fail: a [KeyError], and
    the [TypeError] of subscripting [None] or a scalar. *)
Inductive subscript_error : Type :=
  | KeyError (key : string)
  | NotSubscriptable.

(** The truth value of [os.getenv(name)]: unset and the empty string are
    false. *)
Definition truthy (v : option string) : option string :=
  match v with
  | Some s => if decide (s = "") then None else Some s
  | None => None
  end.

(** [if value := os.getenv(name): config_dict['exchange'][field] = value] *)
Definition override (name field : string) (environ : gmap string string)
    (config_dict : yaml_document) : subscript_error + yaml_document :=
  match truthy (environ !! name) with
  | None => inr config_dict
  | Some value =>
      match config_dict with
      | YEmpty => inl NotSubscriptable
      | YDocument d =>
          match d !! "exchange" with
          | None => inl (KeyError "exchange")
          | Some (YScalar _) => inl NotSubscriptable
          | Some (YMap m) =>
              inr (YDocument (<["exchange" := YMap (<[field := YStr value]> m)]> d))
          end
      end
  end.

(** Lines 80-84 *)
Definition apply_overrides (environ : gmap string string) (config_dict : yaml_document)
    : subscript_error + yaml_document :=
  match override "EXCHANGE_API_KEY" "api_key" environ config_dict with
  | inl err => inl err
  | inr d => override "EXCHANGE_API_SECRET" "api_secret" environ d
  end.

End load_config.

(** * Properties *)

(** ** Comparisons and [min] *)

Lemma Qltb_lt (x y : Q) : Qltb x y = true <-> x < y.
Proof.
  unfold Qltb. rewrite negb_true_iff, <- not_true_iff_false, Qle_bool_iff.
  split; [apply Qnot_le_lt | apply Qlt_not_le].
Qed.

Lemma Qltb_ge (x y : Q) : Qltb x y = false <-> y <= x.
Proof.
  unfold Qltb. rewrite negb_false_iff. apply Qle_bool_iff.
Qed.

Lemma Qle_bool_gt (x y : Q) : Qle_bool x y = false <-> y < x.
Proof.
  rewrite <- not_true_iff_false, Qle_bool_iff.
  split; [apply Qnot_le_lt | apply Qlt_not_le].
Qed.

Lemma py_min_le_l (a b : Q) : py_min a b <= a.
Proof.
  unfold py_min. destruct (Qltb b a) eqn:E.
  - apply Qltb_lt in E. lra.
  - lra.
Qed.

Lemma py_min_ge (a b c : Q) : c <= a -> c <= b -> c <= py_min a b.
Proof. intros Ha Hb. unfold py_min. destruct (Qltb b a); assumption. Qed.

Lemma Qdiv_nonneg (a b : Q) : 0 <= a -> 0 < b -> 0 <= a / b.
Proof.
  intros Ha Hb. unfold Qdiv. apply Qmult_le_0_compat; [assumption |].
  apply Qinv_le_0_compat. lra.
Qed.

(** ** The rate limiter, one caller *)

Lemma refill_ok (self : RateLimiter) (now : Q) :
  0 < time_window self ->
  exists self1, refill self now = Ok self1
    /\ max_requests self1 = max_requests self
    /\ time_window self1 = time_window self
    /\ last_update self1 = now
    /\ tokens self1 =
         py_min (inject_Z (max_requests self))
           (tokens self
            + (now - last_update self) * inject_Z (max_requests self) / time_window self).
Proof.
  intros Hw. unfold refill, float_div.
  destruct (Qeq_bool (time_window self) 0) eqn:E.
  - apply Qeq_bool_iff in E. lra.
  - eexists. repeat split.
Qed.

Lemma refill_within_capacity (self self1 : RateLimiter) (now : Q) :
  well_formed self -> within_capacity self -> last_update self <= now ->
  refill self now = Ok self1 ->
  well_formed self1 /\ within_capacity self1 /\ last_update self1 = now.
Proof.
  intros [Hw Hm] [H0 Hc] Hnow Hr.
  destruct (refill_ok self now Hw) as (s & Hs & Em & Ew & El & Et).
  rewrite Hr in Hs. injection Hs as <-.
  unfold well_formed, within_capacity. rewrite Em, Ew, Et.
  assert (0 <= inject_Z (max_requests self)) as Hm'.
  { change 0 with (inject_Z 0). rewrite <- Zle_Qle. exact Hm. }
  repeat split; try assumption.
  - apply py_min_ge; [assumption |].
    assert (0 <= (now - last_update self) * inject_Z (max_requests self) / time_window self).
    { apply Qdiv_nonneg; [| assumption].
      apply Qmult_le_0_compat; [lra | assumption]. }
    lra.
  - apply py_min_le_l.
Qed.

(** The scripts copy keeps the token count between zero and the capacity. *)
Lemma scripts_acquire_within_capacity (self self' : RateLimiter) (now : Q) (k : nat) :
  well_formed self -> within_capacity self -> last_update self <= now ->
  Scripts_RateLimiter.acquire self now = Returned self' k ->
  well_formed self' /\ within_capacity self' /\ last_update self' = now.
Proof.
  intros Hwf Hin Hnow. unfold Scripts_RateLimiter.acquire.
  destruct (refill self now) as [self1 | e] eqn:Hr; [| discriminate].
  destruct (refill_within_capacity _ _ _ Hwf Hin Hnow Hr) as (Hwf1 & [H0 Hc] & Hl).
  destruct (Qltb (tokens self1) 1) eqn:E; intros [= <- <-].
  - repeat split; assumption || apply Hwf1.
  - apply Qltb_ge in E. unfold within_capacity, well_formed. simpl.
    repeat split; try apply Hwf1; try assumption; lra.
Qed.

(** The same over any sequence of calls made at non-decreasing clock
    readings. *)
Lemma scripts_acquire_all_within_capacity (nows : list Q) :
  forall (self self' : RateLimiter) (k : nat),
  well_formed self -> within_capacity self ->
  Sorted Qle (last_update self :: nows) ->
  Scripts_RateLimiter.acquire_all self nows = Returned self' k ->
  within_capacity self'.
Proof.
  induction nows as [| now rest IH]; intros self self' k Hwf Hin Hs; simpl.
  - intros [= <- <-]. assumption.
  - destruct (Scripts_RateLimiter.acquire self now) as [self1 k1 | |] eqn:Ha;
      try discriminate.
    apply Sorted_inv in Hs as [Hs Hhd]. apply HdRel_inv in Hhd.
    destruct (scripts_acquire_within_capacity _ _ _ _ Hwf Hin Hhd Ha)
      as (Hwf1 & Hin1 & Hl).
    destruct (Scripts_RateLimiter.acquire_all self1 rest) as [self2 k2 | |] eqn:Hb;
      try discriminate.
    intros [= <- <-]. eapply IH; eauto. rewrite Hl. assumption.
Qed.

(** A call of the scripts copy that finds a token takes exactly one; a call
    that finds less than one sleeps once and returns without taking any. *)
Lemma scripts_acquire_cases (self : RateLimiter) (now : Q) :
  0 < time_window self ->
  exists self1, refill self now = Ok self1 /\
    ((1 <= tokens self1
      /\ Scripts_RateLimiter.acquire self now = Returned (take_token self1) 0)
     \/ (tokens self1 < 1
         /\ Scripts_RateLimiter.acquire self now = Returned self1 1)).
Proof.
  intros Hw. destruct (refill_ok self now Hw) as (self1 & Hr & _).
  exists self1. split; [assumption |].
  unfold Scripts_RateLimiter.acquire. rewrite Hr.
  destruct (Qltb (tokens self1) 1) eqn:E.
  - right. apply Qltb_lt in E. auto.
  - left. apply Qltb_ge in E. auto.
Qed.

(** The full copy leaves its loop with a positive count, and only then. *)
Lemma wait_loop_returned (nows : list Q) :
  forall (self self1 : RateLimiter) (k k1 : nat),
  Full_RateLimiter.wait_loop self nows k = Returned self1 k1 -> 0 < tokens self1.
Proof.
  induction nows as [| now rest IH]; intros self self1 k k1; simpl.
  - destruct (Qle_bool (tokens self) 0) eqn:E; [discriminate |].
    intros [= <- <-]. apply Qle_bool_gt in E. assumption.
  - destruct (Qle_bool (tokens self) 0) eqn:E.
    + destruct (refill self now) as [s1 | e]; [| discriminate].
      destruct (Qle_bool (tokens s1) 0); apply IH.
    + intros [= <- <-]. apply Qle_bool_gt in E. assumption.
Qed.

(** The loop of the full copy never leaves more than the capacity. *)
Lemma wait_loop_capacity (nows : list Q) :
  forall (self self1 : RateLimiter) (k k1 : nat),
  0 < time_window self ->
  tokens self <= inject_Z (max_requests self) ->
  Full_RateLimiter.wait_loop self nows k = Returned self1 k1 ->
  tokens self1 <= inject_Z (max_requests self1).
Proof.
  induction nows as [| now rest IH]; intros self self1 k k1 Hw Hc; simpl.
  - destruct (Qle_bool (tokens self) 0); [discriminate |].
    intros [= <- <-]. assumption.
  - destruct (Qle_bool (tokens self) 0).
    + destruct (refill_ok self now Hw) as (s1 & Hr & Em & Ew & _ & Et).
      rewrite Hr.
      assert (tokens s1 <= inject_Z (max_requests s1)) as Hc1
        by (rewrite Et, Em; apply py_min_le_l).
      rewrite <- Ew in Hw.
      destruct (Qle_bool (tokens s1) 0); apply IH; assumption.
    + intros [= <- <-]. assumption.
Qed.

(** Every call of the full copy that returns has taken one token, from a
    count that was positive; the count it leaves is above [-1]. *)
Lemma full_acquire_returned (self self' : RateLimiter) (nows : list Q) (k : nat) :
  Full_RateLimiter.acquire self nows = Returned self' k ->
  exists self1, Full_RateLimiter.wait_loop self nows 0 = Returned self1 k
    /\ 0 < tokens self1 /\ self' = take_token self1 /\ - (1) < tokens self'.
Proof.
  unfold Full_RateLimiter.acquire.
  destruct (Full_RateLimiter.wait_loop self nows 0) as [self1 k1 | |] eqn:Hl;
    try discriminate.
  intros [= <- <-]. exists self1.
  pose proof (wait_loop_returned _ _ _ _ _ Hl) as Hpos.
  repeat split; try assumption. simpl. lra.
Qed.

(** *** Small runs *)

Example scripts_first_call_takes_the_token :
  exists s1, Scripts_RateLimiter.acquire one_per_second 0 = Returned s1 0
             /\ tokens s1 == 0.
Proof. eexists. split; vm_compute; reflexivity. Qed.

Example scripts_call_after_a_second_takes_a_token :
  exists s1 s2, Scripts_RateLimiter.acquire one_per_second 0 = Returned s1 0
                /\ Scripts_RateLimiter.acquire s1 1 = Returned s2 0
                /\ tokens s2 == 0.
Proof. do 2 eexists. repeat split; vm_compute; reflexivity. Qed.

Example full_copy_waits_while_the_clock_stands :
  exists f1 f2, Full_RateLimiter.acquire one_per_second [] = Returned f1 0
                /\ Full_RateLimiter.acquire f1 [0; 0] = Waiting f2.
Proof. do 2 eexists. split; vm_compute; reflexivity. Qed.

Example full_copy_sleeps_once_then_takes :
  exists f1 f2, Full_RateLimiter.acquire one_per_second [] = Returned f1 0
                /\ Full_RateLimiter.acquire f1 [0; 1] = Returned f2 1
                /\ tokens f2 == 0.
Proof. do 2 eexists. repeat split; vm_compute; reflexivity. Qed.

Example zero_window_raises :
  Scripts_RateLimiter.acquire (Scripts_RateLimiter.init 30 0 0) 1
  = Raised ZeroDivisionError.
Proof. reflexivity. Qed.

(** ** The rate limiter at [RateLimiter(1, 1.0)], two calls 0.3 s apart *)

(** C2, the code at the failing input. A limiter of capacity 1 per second is
    constructed at time 0 and [acquire] is called at once, then again 0.3 s
    later. The second call finds 0.3 token. The scripts copy sleeps once and
    returns with the count still 0.3: it has returned without taking a token.
    The full copy does not wait at all and takes a token although less than
    one was there. *)
Theorem acquire_second_call_without_a_token :
  exists s1 s2 f1 f2 : RateLimiter,
    Scripts_RateLimiter.acquire one_per_second 0 = Returned s1 0
    /\ tokens s1 == 0
    /\ refill s1 (3 # 10) = Ok s2
    /\ tokens s2 == 3 # 10
    /\ Scripts_RateLimiter.acquire s1 (3 # 10) = Returned s2 1
    /\ Full_RateLimiter.acquire one_per_second [] = Returned f1 0
    /\ tokens f1 == 0
    /\ Full_RateLimiter.wait_loop f1 [3 # 10] 0 = Returned s2 0
    /\ Full_RateLimiter.acquire f1 [3 # 10] = Returned f2 0
    /\ f2 = take_token s2.
Proof.
  do 4 eexists. repeat split; vm_compute; reflexivity.
Qed.


(** ** Ladder construction: [initialize] *)

Section Initialize.
Context {W : Type} `{!ExchangeInterface W}.
Hypothesis only_Exception : raises_only_Exception W.

Implicit Types (self : GridTradingStrategy) (e : env W).

(** [_place_grid_order] returns normally whatever the exchange answers, and
    logs the answer. *)
Lemma place_grid_order_run self s p e r w :
  place_limit_order (symbol (config self)) s p (quantity_per_order (config self))
    (world e) = (r, w) ->
  _place_grid_order self s p e =
    (Ok tt,
     mkEnv w (trace e
              ++ [EvPlaceLimitOrder (symbol (config self)) s p
                    (quantity_per_order (config self)) r]
              ++ [match r with
                  | Ok order_id => EvLogInfo (MsgPlaced s p order_id)
                  | Raise x => EvLogError (MsgPlaceError s p x)
                  end])).
Proof.
  intros Hp.
  unfold _place_grid_order, try_except_Exception, mbind, M_bind,
    exchange_place_limit_order, logger_info, logger_error, emit.
  rewrite Hp. destruct r as [order_id | x]; simpl.
  - rewrite <- app_assoc. reflexivity.
  - pose proof (only_Exception (symbol (config self)) s p
                  (quantity_per_order (config self)) (world e) x) as Hx.
    rewrite Hp in Hx. rewrite (Hx eq_refl). simpl.
    rewrite <- app_assoc. reflexivity.
Qed.

(** One turn of the loop: one reading of the price, one placement, one log
    line, and no exception. *)
Lemma place_level_run self i e :
  exists p r w,
    place_level self
      ((upper_price (config self) - lower_price (config self))
       / inject_Z (grid_size (config self) - 1)) i e =
    (Ok tt, mkEnv w (trace e ++ level_events (config self) i p r)).
Proof.
  unfold place_level, mbind, M_bind, get_current_price.
  destruct (_get_current_price (world e)) as [p w1] eqn:Hp.
  fold (level_price (config self) i).
  set (s := if Qltb (level_price (config self) i) p then buy else sell).
  destruct (place_limit_order (symbol (config self)) s (level_price (config self) i)
              (quantity_per_order (config self)) w1) as [r w2] eqn:Hr.
  exists p, r, w2.
  assert (forall e1, world e1 = w1 ->
            _place_grid_order self s (level_price (config self) i) e1 =
            (Ok tt, mkEnv w2 (trace e1
               ++ [EvPlaceLimitOrder (symbol (config self)) s
                     (level_price (config self) i)
                     (quantity_per_order (config self)) r]
               ++ [match r with
                   | Ok order_id =>
                       EvLogInfo (MsgPlaced s (level_price (config self) i) order_id)
                   | Raise x =>
                       EvLogError (MsgPlaceError s (level_price (config self) i) x)
                   end]))) as Hrun.
  { intros e1 He1. apply place_grid_order_run. rewrite He1. exact Hr. }
  unfold level_events. fold s.
  destruct (Qltb (level_price (config self) i) p); subst s;
    rewrite Hrun by reflexivity; simpl; rewrite <- app_assoc; reflexivity.
Qed.

(** The whole loop. *)
Lemma for_each_place_level self (l : list Z) :
  forall e, exists e' tr,
    for_each l (place_level self
      ((upper_price (config self) - lower_price (config self))
       / inject_Z (grid_size (config self) - 1))) e = (Ok tt, e')
    /\ trace e' = trace e ++ tr
    /\ ladder_trace (config self) l tr.
Proof.
  induction l as [| i l IH]; intros e; simpl.
  - exists e, []. rewrite app_nil_r. repeat split. constructor.
  - unfold mbind, M_bind.
    destruct (place_level_run self i e) as (p & r & w & Hrun). rewrite Hrun.
    destruct (IH (mkEnv w (trace e ++ level_events (config self) i p r)))
      as (e' & tr & Hloop & Htr & Hlad).
    exists e', (level_events (config self) i p r ++ tr).
    repeat split.
    + exact Hloop.
    + rewrite Htr. simpl. rewrite <- app_assoc. reflexivity.
    + constructor. exact Hlad.
Qed.

(** [initialize] on a grid size other than 1 returns normally; its trace is
    the opening log line and one turn per index of [range(grid_size)]. *)
Lemma initialize_run self (w : W) :
  grid_size (config self) <> 1%Z ->
  exists e' tr,
    initialize self (mkEnv w []) = (Ok tt, e')
    /\ trace e' = EvLogInfo (MsgInitializing (symbol (config self))) :: tr
    /\ ladder_trace (config self) (py_range (grid_size (config self))) tr.
Proof.
  intros Hn. unfold initialize, mbind, M_bind, logger_info, emit, lift, decimal_div.
  simpl.
  destruct (Qeq_bool (inject_Z (grid_size (config self) - 1)) 0) eqn:E.
  { apply Qeq_bool_iff in E. change 0 with (inject_Z 0) in E.
    apply (proj1 (inject_Z_injective _ _)) in E. lia. }
  destruct (for_each_place_level self (py_range (grid_size (config self)))
              (mkEnv w [EvLogInfo (MsgInitializing (symbol (config self)))]))
    as (e' & tr & Hloop & Htr & Hlad).
  exists e', tr. repeat split; assumption.
Qed.

End Initialize.

(** *** What a ladder trace says *)

Lemma requests_app (tr1 tr2 : list event) :
  requests (tr1 ++ tr2) = requests tr1 ++ requests tr2.
Proof. apply omap_app. Qed.

Lemma ladder_trace_prices (cfg : GridConfig) (l : list Z) (tr : list event) :
  ladder_trace cfg l tr -> map snd (requests tr) = map (level_price cfg) l.
Proof.
  induction 1 as [| i l p r tr _ IH]; [reflexivity |].
  rewrite requests_app, map_app, IH. destruct r; reflexivity.
Qed.

Lemma ladder_trace_sides (cfg : GridConfig) (l : list Z) (tr : list event) :
  ladder_trace cfg l tr ->
  Forall2 (fun obs sp => sp.1 = buy <-> sp.2 < obs) (observations tr) (requests tr).
Proof.
  induction 1 as [| i l p r tr _ IH]; [constructor |].
  unfold observations, requests in *. rewrite !omap_app.
  assert (forall s : Side, (if Qltb (level_price cfg i) p then buy else sell) = s ->
            (s = buy <-> level_price cfg i < p)) as Hside.
  { intros s <-. destruct (Qltb (level_price cfg i) p) eqn:E.
    - apply Qltb_lt in E. tauto.
    - apply Qltb_ge in E. split; [discriminate | lra]. }
  destruct r; simpl; constructor; try exact IH; simpl; apply Hside; reflexivity.
Qed.

Lemma ladder_trace_errors (cfg : GridConfig) (l : list Z) (tr : list event) :
  ladder_trace cfg l tr -> error_log tr = failed_requests tr.
Proof.
  induction 1 as [| i l p r tr _ IH]; [reflexivity |].
  unfold error_log, failed_requests in *. rewrite !omap_app, IH.
  destruct r; reflexivity.
Qed.

Lemma length_py_range (n : Z) : length (py_range n) = Z.to_nat n.
Proof. unfold py_range. rewrite length_map, length_seq. reflexivity. Qed.

Lemma lookup_py_range (n : Z) (i : nat) :
  (i < Z.to_nat n)%nat -> py_range n !! i = Some (Z.of_nat i).
Proof.
  intros Hi. unfold py_range. rewrite list_lookup_fmap.
  rewrite lookup_seq_lt by assumption. reflexivity.
Qed.

Lemma scripted_exchange_only_Exception : raises_only_Exception scripted_world.
Proof.
  intros sym s p q w x. simpl. destruct s; [discriminate |].
  destruct (w_funds w); [discriminate |]. intros [= <-]. reflexivity.
Defined.

Lemma classified_against_one_reading (r : Q) (obs : list Q) (reqs : list (Side * Q)) :
  Forall2 (fun o sp => sp.1 = buy <-> sp.2 < o) obs reqs ->
  Forall (fun o => o == r) obs ->
  Forall (fun sp => (sp.1 = buy <-> sp.2 < r) /\ (sp.1 = sell <-> r <= sp.2)) reqs.
Proof.
  induction 1 as [| o [s p] obs reqs Hc _ IH]; intros Hall; [constructor |].
  apply Forall_cons in Hall as [Ho Hall]. constructor; [| apply IH; assumption].
  simpl in *. rewrite Ho in Hc. split; [exact Hc |].
  destruct s.
  - split; [discriminate |]. intros Hle. apply proj1 in Hc.
    specialize (Hc eq_refl). lra.
  - split; [| reflexivity]. intros _.
    destruct (Qlt_le_dec p r) as [Hlt | Hle]; [| exact Hle].
    apply Hc in Hlt. discriminate.
Qed.








(** In that run the three sells are refused, and logged. *)
Example refused_sells_are_logged :
  map (fun f => f.1.1)
    (error_log (trace (initialize five_level_strategy (mkEnv no_funds_market [])).2))
  = [sell; sell; sell].
Proof. vm_compute. reflexivity. Qed.

(** *** Small runs *)

Example steady_market_prices :
  map (fun sp => Qred sp.2)
    (requests (trace (initialize five_level_strategy (mkEnv steady_market [])).2))
  = [100; 125; 150; 175; 200].
Proof. vm_compute. reflexivity. Qed.

Example steady_market_sides :
  map fst (requests (trace (initialize five_level_strategy (mkEnv steady_market [])).2))
  = [buy; buy; sell; sell; sell].
Proof. vm_compute. reflexivity. Qed.

Example moving_market_sides :
  map fst (requests (trace (initialize five_level_strategy (mkEnv moving_market [])).2))
  = [buy; sell; buy; sell; sell].
Proof. vm_compute. reflexivity. Qed.

Example one_level_grid_raises :
  (initialize
     {| config := mkGridConfig "BTC-USD" 1 200 100 1; price_update_interval := 1;
        active_orders := ∅; is_running := false |}
     (mkEnv steady_market [])).1
  = Raise DecimalDivisionByZero.
Proof. reflexivity. Qed.

(** ** Instantiation and the handlers that are not there *)

Lemma GridTradingStrategy_abstractmethods :
  abstractmethods GridTradingStrategy_class
  = {[ "start"; "stop"; "on_price_update"; "on_order_filled" ]}.
Proof. vm_compute. reflexivity. Qed.

Lemma instantiate_abstract {W A : Type} (cls : py_class) (init : A) (e : env W) :
  abstractmethods cls <> ∅ -> instantiate cls init e = (Raise TypeError, e).
Proof.
  intros Hne. unfold instantiate. destruct (decide (abstractmethods cls = ∅)).
  - contradiction.
  - reflexivity.
Qed.

Lemma GridTradingStrategy_abstract : abstractmethods GridTradingStrategy_class <> ∅.
Proof.
  intros E.
  assert ("on_order_filled" ∈ abstractmethods GridTradingStrategy_class) as Hin
    by (vm_compute; reflexivity).
  rewrite E in Hin. exact (not_elem_of_empty _ Hin).
Qed.

Lemma CoinbaseExchange_abstract : abstractmethods CoinbaseExchange_class <> ∅.
Proof.
  intros E.
  assert ("cancel_order" ∈ abstractmethods CoinbaseExchange_class) as Hin
    by (vm_compute; reflexivity).
  rewrite E in Hin. exact (not_elem_of_empty _ Hin).
Qed.

(** The [start] command never reaches the exchange: constructing
    [CoinbaseExchange], itself short of three abstract methods, raises the
    [TypeError] that the command catches and prints. *)
Lemma cli_start_calls_nothing {W : Type} (loaded : result loader.Config) (e : env W) :
  exists r msgs,
    cli_start loaded e = (r, mkEnv (world e) (trace e ++ msgs))
    /\ requests msgs = [] /\ cancellations msgs = [] /\ observations msgs = [].
Proof.
  unfold cli_start, try_except_Exception, mbind, M_bind, lift.
  destruct loaded as [cfg | x].
  - rewrite (instantiate_abstract _ _ _ CoinbaseExchange_abstract). simpl.
    eexists _, [_]. repeat split.
  - destruct (is_Exception x).
    + eexists _, [_]. repeat split.
    + exists (Raise x), []. rewrite app_nil_r. destruct e. repeat split.
Qed.

(** C10. Of the five abstract methods of [TradingStrategy],
    [GridTradingStrategy] defines [initialize] only; [start], [stop],
    [on_price_update] and [on_order_filled] stay abstract, so every
    construction of a [GridTradingStrategy] raises [TypeError] and leaves the
    world and the trace as they were: no call has reached the exchange. *)
Theorem GridTradingStrategy_instantiation_raises :
  filter (fun name => is_Some (namespace GridTradingStrategy_class !! name))
    (abstractmethods TradingStrategy_class) = {[ "initialize" ]}
  /\ abstractmethods GridTradingStrategy_class
     = {[ "start"; "stop"; "on_price_update"; "on_order_filled" ]}
  /\ (forall (W : Type) (cfg : GridConfig) (interval : Q) (e : env W),
        new_GridTradingStrategy cfg interval e = (Raise TypeError, e))
  /\ (forall (W : Type) (cfg : loader.GridConfig) (e : env W),
        instantiate GridTradingStrategy_class cfg e = (Raise TypeError, e)).
Proof.
  split; [vm_compute; reflexivity |].
  split; [exact GridTradingStrategy_abstractmethods |].
  split; intros; apply instantiate_abstract, GridTradingStrategy_abstract.
Qed.


(** Nor does it on any other input. *)
Lemma on_order_filled_is_pass {W : Type} (self : GridTradingStrategy) (order : Order)
    (e : env W) :
  GridTradingStrategy_on_order_filled self order e = (Ok tt, e).
Proof.
  unfold GridTradingStrategy_on_order_filled.
  replace (namespace GridTradingStrategy_class !! "on_order_filled")
    with (@None method_kind) by (vm_compute; reflexivity).
  reflexivity.
Qed.

(** ** [stop] of the scripts strategy *)

(** C6, the claim as stated fails: a running strategy holds order
    ["order-1"], and [stop] asks the exchange for no cancellation. *)
Lemma stop_cancels_nothing :
  Scripts_GridStrategy.is_running running_with_order = true
  /\ ~ (forall key order_id,
          Scripts_GridStrategy.active_orders running_with_order !! key = Some order_id ->
          order_id ∈ cancellations
            (trace (Scripts_GridStrategy.stop running_with_order
                      (mkEnv steady_market [])).2)).
Proof.
  split; [reflexivity |]. intros Hall.
  specialize (Hall "125" "order-1" ltac:(vm_compute; reflexivity)).
  simpl in Hall. exact (not_elem_of_nil _ Hall).
Qed.

(** C6 as amended. [stop] clears the running flag and does nothing else: it
    keeps [active_orders], makes no call and so asks for no cancellation; a
    second [stop] gives the same strategy and again makes no call, so that two
    calls of [stop] ask at most once (in fact never) for the cancellation of
    any order. *)
Theorem stop_clears_flag_only {W : Type} (self : Scripts_GridStrategy.GridStrategy)
    (e : env W) :
  exists self',
    Scripts_GridStrategy.stop self e = (Ok self', e)
    /\ Scripts_GridStrategy.is_running self' = false
    /\ Scripts_GridStrategy.active_orders self' = Scripts_GridStrategy.active_orders self
    /\ Scripts_GridStrategy.stop self' e = (Ok self', e)
    /\ (forall order_id,
          (length (filter (fun c => c = order_id)
             (cancellations
                (trace ((self1 ← Scripts_GridStrategy.stop self;
                         Scripts_GridStrategy.stop self1) (mkEnv (world e) [])).2)))
           <= 1)%nat).
Proof.
  eexists. repeat split. intros order_id. simpl. lia.
Qed.

(** ** Configuration validation *)

(** C9, the claim as stated fails: a configuration with the upper price
    below the lower one and a negative quantity is accepted. *)
Lemma inverted_range_is_accepted :
  ~ (forall (sym : string) (n : Z) (upper lower qty : Q),
       (exists cfg, Scripts_validation.new_GridConfig sym n upper lower qty = Ok cfg)
       <-> ((2 <= n)%Z /\ lower < upper /\ 0 < qty)).
Proof.
  intros Hall.
  destruct (Hall "BTC-USD" 5%Z 100 200 (-1)) as [Hacc _].
  destruct Hacc as (_ & Hlt & _); [eexists; reflexivity |].
  revert Hlt. vm_compute. discriminate.
Qed.

(** C9 as amended. Validation rejects with an error every configuration
    whose grid size is below 2 and accepts every other one, as given: the
    scripts [GridConfig] whatever its prices and quantity, the loader's
    [GridConfig] when moreover its spread is strictly between 0 and 1. *)
Theorem validation_checks_grid_size :
  (forall (sym : string) (n : Z) (upper lower qty : Q),
     ((2 <= n)%Z ->
      Scripts_validation.new_GridConfig sym n upper lower qty
      = Ok (mkGridConfig sym n upper lower qty))
     /\ ((n < 2)%Z ->
         exists msg, Scripts_validation.new_GridConfig sym n upper lower qty
                     = Raise (ValueError msg)))
  /\ (forall (pair : string) (n : Z) (spread size : Q) (interval : Z),
        ((2 <= n)%Z /\ 0 < spread /\ spread < 1 ->
         loader.new_GridConfig pair n spread size interval
         = Ok (loader.mkGridConfig pair n spread size interval))
        /\ (~ ((2 <= n)%Z /\ 0 < spread /\ spread < 1) ->
            exists msg, loader.new_GridConfig pair n spread size interval
                        = Raise (ValueError msg))).
Proof.
  split.
  - intros sym n upper lower qty.
    unfold Scripts_validation.new_GridConfig, Scripts_validation.validate_grid_size.
    split; intros Hn.
    + destruct (n <? 2)%Z eqn:E; [apply Z.ltb_lt in E; lia | reflexivity].
    + destruct (n <? 2)%Z eqn:E; [eexists; reflexivity | apply Z.ltb_ge in E; lia].
  - intros pair n spread size interval.
    unfold loader.new_GridConfig, loader.validate_grid_size,
      loader.validate_grid_spread.
    destruct (n <? 2)%Z eqn:En;
      [apply Z.ltb_lt in En | apply Z.ltb_ge in En];
      (destruct (Qltb 0 spread) eqn:E0;
         [apply Qltb_lt in E0 | apply Qltb_ge in E0]);
      (destruct (Qltb spread 1) eqn:E1;
         [apply Qltb_lt in E1 | apply Qltb_ge in E1]);
      simpl; (split; [intros (? & ? & ?) | intros Hnot]);
      try reflexivity; try (eexists; reflexivity); try lia; try lra.
    exfalso. apply Hnot. repeat split; assumption.
Qed.

Lemma validation_witness :
  (2 <= 5)%Z
  /\ Scripts_validation.new_GridConfig "BTC-USD" 5 100 200 (-1)
     = Ok (mkGridConfig "BTC-USD" 5 100 200 (-1)).
Proof.
  split; [discriminate |].
  apply (proj1 (proj1 validation_checks_grid_size "BTC-USD" 5%Z 100 200 (-1))).
  discriminate.
Defined.

(** ** Concurrent callers: who holds the lock *)

Lemma lookup_move_same (s : system) (i : nat) rl h p :
  (i < length (tasks s))%nat -> tasks (move s i rl h p) !! i = Some p.
Proof. intros Hi. simpl. apply list_lookup_insert_eq. exact Hi. Qed.

Lemma lookup_move_other (s : system) (i j : nat) rl h p :
  i <> j -> tasks (move s i rl h p) !! j = tasks s !! j.
Proof. intros Hij. simpl. apply list_lookup_insert_ne. exact Hij. Qed.

(** Task [i] takes or keeps the lock. *)
Lemma move_keeps_invariant (s : system) (i : nat) rl p :
  inside_holds_lock s -> lock s = None \/ lock s = Some i ->
  inside_holds_lock (move s i rl (Some i) p).
Proof.
  intros Hinv Hlock j Hj. destruct (decide (i = j)) as [-> | Hij]; [reflexivity |].
  rewrite lookup_move_other in Hj by assumption.
  apply Hinv in Hj. destruct Hlock as [Hl | Hl]; rewrite Hl in Hj; congruence.
Qed.

(** Task [i] leaves the block and gives the lock back. *)
Lemma move_release_invariant (s : system) (i : nat) rl p :
  inside_holds_lock s -> lock s = Some i -> (i < length (tasks s))%nat ->
  p <> Critical -> (forall wake, p <> Sleeping wake) ->
  inside_holds_lock (move s i rl None p).
Proof.
  intros Hinv Hlock Hi Hc Hs j Hj. destruct (decide (i = j)) as [<- | Hij].
  - rewrite lookup_move_same in Hj by assumption.
    destruct Hj as [[= ->] | [wake [= ->]]]; [contradiction | destruct (Hs wake eq_refl)].
  - rewrite lookup_move_other in Hj by assumption.
    apply Hinv in Hj. congruence.
Qed.

Lemma task_step_invariant (v : version) (i : nat) (s s' : system) :
  inside_holds_lock s -> task_step v i s = Some s' -> inside_holds_lock s'.
Proof.
  intros Hinv. unfold task_step.
  destruct (tasks s !! i) as [[| | wake | |] |] eqn:Hpc; try discriminate.
  - destruct (lock s) eqn:Hl; [discriminate |]. intros [= <-].
    apply move_keeps_invariant; auto.
  - pose proof (Hinv i (or_introl Hpc)) as Hl.
    pose proof (lookup_lt_Some _ _ _ Hpc) as Hi.
    intros [= <-]. unfold critical_step.
    destruct v.
    + destruct (refill (limiter s) (clock s)) as [rl | x].
      * destruct (Qltb (tokens rl) 1).
        -- rewrite Hl. apply move_keeps_invariant; auto.
        -- apply move_release_invariant; auto; discriminate.
      * apply move_release_invariant; auto; discriminate.
    + destruct (Qle_bool (tokens (limiter s)) 0).
      * destruct (refill (limiter s) (clock s)) as [rl | x].
        -- destruct (Qle_bool (tokens rl) 0);
             rewrite Hl; apply move_keeps_invariant; auto.
        -- apply move_release_invariant; auto; discriminate.
      * apply move_release_invariant; auto; discriminate.
  - pose proof (Hinv i (or_intror (ex_intro _ wake Hpc))) as Hl.
    pose proof (lookup_lt_Some _ _ _ Hpc) as Hi.
    destruct (Qle_bool wake (clock s)); [| discriminate].
    intros [= <-]. unfold wake_step. destruct v.
    + apply move_release_invariant; auto; discriminate.
    + rewrite Hl. apply move_keeps_invariant; auto.
Qed.

Lemma step_invariant (v : version) (s s' : system) :
  inside_holds_lock s -> step v s s' -> inside_holds_lock s'.
Proof.
  intros Hinv Hstep. destruct Hstep as [i s s' Ht | d s Hd].
  - eapply task_step_invariant; eassumption.
  - exact Hinv.
Qed.

Lemma reachable_invariant (v : version) (s0 s : system) :
  inside_holds_lock s0 -> reachable v s0 s -> inside_holds_lock s.
Proof.
  intros Hinv Hreach. induction Hreach as [| s0 s1 s Hstep _ IH]; [assumption |].
  apply IH. eapply step_invariant; eassumption.
Qed.

Lemma fresh_system_invariant (rl : RateLimiter) (now : Q) (n : nat) :
  inside_holds_lock (fresh_system rl now n).
Proof.
  intros i [Hi | [wake Hi]]; simpl in Hi;
    apply lookup_replicate in Hi as [Hi _]; discriminate.
Qed.

Lemma run_schedule_reachable (v : version) (schedule : list nat) :
  forall s s', run_schedule v schedule s = Some s' -> reachable v s s'.
Proof.
  induction schedule as [| i rest IH]; intros s s'; simpl.
  - intros [= <-]. apply rtc_refl.
  - destruct (task_step v i s) as [s1 |] eqn:Hs; [| discriminate].
    intros Hrest. eapply rtc_l; [apply (step_task v i); exact Hs |].
    apply IH. exact Hrest.
Defined.

(** Three callers of [RateLimiter(1, 1.0)] at time 0: the first takes the
    only token, the second finds none and sleeps inside the block. *)
Lemma second_caller_sleeps_with_lock (v : version) :
  exists s,
    run_schedule v [0; 0; 1; 1]%nat (fresh_system one_per_second 0 3) = Some s
    /\ tasks s !! 1%nat = Some (Sleeping (1 # 10))
    /\ lock s = Some 1%nat
    /\ tasks s !! 2%nat = Some Start
    /\ task_step v 2 s = None.
Proof.
  destruct v; eexists; (split; [vm_compute; reflexivity |]);
    repeat split; vm_compute; reflexivity.
Defined.

(** C7, the claim as stated fails: with either copy of [acquire], the second
    of three callers is asleep inside the block with the lock in its hands. *)
Lemma lock_is_held_across_the_wait :
  ~ (forall (v : version) (s : system) (i : nat) (wake : Q),
       reachable v (fresh_system one_per_second 0 3) s ->
       tasks s !! i = Some (Sleeping wake) -> lock s <> Some i).
Proof.
  intros Hclaim.
  destruct (second_caller_sleeps_with_lock scripts_copy) as (s & Hrun & Hpc & Hl & _).
  apply (Hclaim scripts_copy s 1%nat (1 # 10)); try assumption.
  apply (run_schedule_reachable _ _ _ _ Hrun).
Qed.

(** C7 as amended. In both copies of [acquire] the lock is held for the
    whole body of the [async with] block, the sleep of 0.1 s included: in
    every state that callers of a fresh limiter can reach, a caller that is
    asleep waiting for a token holds the lock, and no caller that has yet to
    enter the block can take a step until it has woken up. *)
Theorem sleeping_caller_holds_lock (v : version) (rl : RateLimiter) (now : Q)
    (n : nat) (s : system) (i : nat) (wake : Q) :
  reachable v (fresh_system rl now n) s ->
  tasks s !! i = Some (Sleeping wake) ->
  lock s = Some i
  /\ (forall j, tasks s !! j = Some Start -> task_step v j s = None)
  /\ (forall j, j <> i -> tasks s !! j <> Some Critical).
Proof.
  intros Hreach Hpc.
  pose proof (reachable_invariant _ _ _ (fresh_system_invariant rl now n) Hreach)
    as Hinv.
  assert (lock s = Some i) as Hl by (apply Hinv; right; eauto).
  repeat split.
  - exact Hl.
  - intros j Hj. unfold task_step. rewrite Hj, Hl. reflexivity.
  - intros j Hij Hj. apply (or_introl (B := exists w, tasks s !! j = Some (Sleeping w)))
      in Hj. apply Hinv in Hj. congruence.
Qed.

Lemma sleeping_caller_witness :
  exists s,
    reachable full_copy (fresh_system one_per_second 0 3) s
    /\ tasks s !! 1%nat = Some (Sleeping (1 # 10))
    /\ lock s = Some 1%nat.
Proof.
  destruct (second_caller_sleeps_with_lock full_copy) as (s & Hrun & Hpc & _).
  exists s.
  pose proof (run_schedule_reachable _ _ _ _ Hrun) as Hreach.
  split; [exact Hreach |]. split; [exact Hpc |].
  exact (proj1 (sleeping_caller_holds_lock full_copy one_per_second 0 3 s 1
                  (1 # 10) Hreach Hpc)).
Defined.

(** ** The metrics collector *)

Lemma add_trades_app (self : metrics.MetricsCollector) (l1 l2 : list metrics.trade) :
  metrics.add_trades self (l1 ++ l2) = metrics.add_trades (metrics.add_trades self l1) l2.
Proof. unfold metrics.add_trades. apply fold_left_app. Qed.

Lemma add_trades_snoc (self : metrics.MetricsCollector) (l : list metrics.trade)
    (t : metrics.trade) :
  metrics.add_trades self (l ++ [t]) = metrics.add_trade (metrics.add_trades self l) t.
Proof. rewrite add_trades_app. reflexivity. Qed.

Lemma add_trade_balance (self : metrics.MetricsCollector) (t : metrics.trade) :
  metrics.current_balance (metrics.add_trade self t)
  == metrics.current_balance self + metrics.balance_change t.
Proof.
  unfold metrics.add_trade, metrics.balance_change. simpl.
  destruct (String.eqb (metrics.side t) "buy"); ring.
Qed.


Lemma total_change_Permutation (l1 l2 : list metrics.trade) :
  Permutation l1 l2 -> metrics.total_change l1 == metrics.total_change l2.
Proof.
  induction 1 as [| t l1 l2 _ IH | t1 t2 l | l1 l2 l3 _ IH1 _ IH2]; simpl.
  - reflexivity.
  - rewrite IH. reflexivity.
  - ring.
  - rewrite IH1. exact IH2.
Qed.


Lemma add_trade_peak (self : metrics.MetricsCollector) (t : metrics.trade) :
  metrics.current_balance (metrics.add_trade self t)
    <= metrics.peak_balance (metrics.add_trade self t)
  /\ metrics.peak_balance self <= metrics.peak_balance (metrics.add_trade self t).
Proof.
  unfold metrics.add_trade. simpl.
  set (b := if String.eqb (metrics.side t) "buy" then _ else _).
  destruct (Qltb (metrics.peak_balance self) b) eqn:E.
  - apply Qltb_lt in E. split; lra.
  - apply Qltb_ge in E. split; lra.
Qed.

(** X3. From a fresh collector, after any trades the peak balance is at least
    the current balance and never negative; one more trade never lowers it. *)
Theorem peak_balance_bounds (l : list metrics.trade) (t : metrics.trade) :
  metrics.current_balance (metrics.add_trades metrics.init l)
    <= metrics.peak_balance (metrics.add_trades metrics.init l)
  /\ 0 <= metrics.peak_balance (metrics.add_trades metrics.init l)
  /\ metrics.peak_balance (metrics.add_trades metrics.init l)
     <= metrics.peak_balance (metrics.add_trades metrics.init (l ++ [t])).
Proof.
  assert (forall l,
            metrics.current_balance (metrics.add_trades metrics.init l)
              <= metrics.peak_balance (metrics.add_trades metrics.init l)
            /\ 0 <= metrics.peak_balance (metrics.add_trades metrics.init l)) as H.
  { clear. induction l as [| t l IH] using rev_ind.
    - simpl. split; lra.
    - rewrite add_trades_snoc.
      destruct IH as [_ H0].
      destruct (add_trade_peak (metrics.add_trades metrics.init l) t) as [Hc Hm].
      split; [exact Hc | lra]. }
  destruct (H l) as [Hc H0]. repeat split; try assumption.
  rewrite add_trades_snoc. apply add_trade_peak.
Qed.

(** X4. The peak balance is the running maximum: it is at least the balance
    reached after every prefix of the trades, and it is the balance reached
    after one of them (the empty prefix, with balance 0, included). *)
Theorem peak_balance_is_running_maximum (l : list metrics.trade) :
  (forall l1 l2, l = l1 ++ l2 ->
     metrics.current_balance (metrics.add_trades metrics.init l1)
     <= metrics.peak_balance (metrics.add_trades metrics.init l))
  /\ (exists l1 l2, l = l1 ++ l2
        /\ metrics.peak_balance (metrics.add_trades metrics.init l)
           = metrics.current_balance (metrics.add_trades metrics.init l1)).
Proof.
  induction l as [| t l [IHle IHex]] using rev_ind.
  - split.
    + intros l1 l2 E. symmetry in E. apply app_eq_nil in E as [-> ->]. simpl. lra.
    + exists [], []. split; reflexivity.
  - destruct (add_trade_peak (metrics.add_trades metrics.init l) t) as [Hc Hm].
    split.
    + intros l1 l2 E. rewrite add_trades_snoc.
      destruct l2 as [| t2 l2 _] using rev_ind.
      * rewrite app_nil_r in E. subst l1. rewrite add_trades_snoc. exact Hc.
      * rewrite app_assoc in E. apply app_inj_tail in E as [E _].
        specialize (IHle l1 l2 E). lra.
    + destruct IHex as (l1 & l2 & E & Hp).
      rewrite add_trades_snoc. unfold metrics.add_trade at 1. simpl.
      match goal with |- context [Qltb ?a ?b] => destruct (Qltb a b) end.
      * exists (l ++ [t]), []. split; [rewrite app_nil_r; reflexivity |].
        rewrite add_trades_snoc. reflexivity.
      * exists l1, (l2 ++ [t]). split; [rewrite E, app_assoc; reflexivity | exact Hp].
Qed.




Lemma peak_running_maximum_witness :
  metrics.current_balance
    (metrics.add_trades metrics.init [metrics.mkTrade 110 2 "sell" 1 1])
  <= metrics.peak_balance
       (metrics.add_trades metrics.init
          [metrics.mkTrade 110 2 "sell" 1 1; metrics.mkTrade 100 2 "buy" 0 1]).
Proof.
  exact (proj1 (peak_balance_is_running_maximum
                  [metrics.mkTrade 110 2 "sell" 1 1; metrics.mkTrade 100 2 "buy" 0 1])
           [metrics.mkTrade 110 2 "sell" 1 1] [metrics.mkTrade 100 2 "buy" 0 1] eq_refl).
Defined.

(** ** More on the rate limiter, one caller *)

Lemma py_min_le_r (a b : Q) : py_min a b <= b.
Proof.
  unfold py_min. destruct (Qltb b a) eqn:E.
  - lra.
  - apply Qltb_ge in E. exact E.
Qed.

Lemma refill_fields (self self1 : RateLimiter) (now : Q) :
  refill self now = Ok self1 ->
  ~ time_window self == 0
  /\ max_requests self1 = max_requests self
  /\ time_window self1 = time_window self
  /\ last_update self1 = now
  /\ tokens self1 =
       py_min (inject_Z (max_requests self))
         (tokens self
          + (now - last_update self) * inject_Z (max_requests self) / time_window self).
Proof.
  unfold refill, float_div.
  destruct (Qeq_bool (time_window self) 0) eqn:E; [discriminate |].
  intros [= <-]. apply Qeq_bool_neq in E. repeat split. exact E.
Qed.

Lemma scripts_acquire_step (self self' : RateLimiter) (now : Q) (k : nat) :
  Scripts_RateLimiter.acquire self now = Returned self' k ->
  ~ time_window self == 0
  /\ max_requests self' = max_requests self
  /\ time_window self' = time_window self
  /\ last_update self' = now
  /\ (k <= 1)%nat
  /\ tokens self' + inject_Z (Z.of_nat (1 - k))
     <= tokens self
        + (now - last_update self) * inject_Z (max_requests self) / time_window self.
Proof.
  unfold Scripts_RateLimiter.acquire.
  destruct (refill self now) as [self1 | x] eqn:Hr; [| discriminate].
  destruct (refill_fields _ _ _ Hr) as (Hw & Em & Ew & El & Et).
  pose proof (py_min_le_r (inject_Z (max_requests self))
                (tokens self + (now - last_update self)
                               * inject_Z (max_requests self) / time_window self)) as Hle.
  rewrite <- Et in Hle.
  destruct (Qltb (tokens self1) 1); intros [= <- <-]; simpl;
    repeat split; try assumption; try lia.
  - change (inject_Z (Z.of_nat 0)) with 0. lra.
  - change (inject_Z (Z.of_nat 1)) with 1. lra.
Qed.

(** X6. The token-bucket law for the scripts copy. Over any sequence of calls
    that returns, each call sleeps at most once, and the number of calls that
    took a token is at most the tokens at the start plus what the elapsed time
    refills, [elapsed * max_requests / time_window], minus the tokens left. *)
Theorem scripts_throughput_bound (nows : list Q) :
  forall (self self' : RateLimiter) (k : nat),
  Scripts_RateLimiter.acquire_all self nows = Returned self' k ->
  (k <= length nows)%nat
  /\ max_requests self' = max_requests self
  /\ time_window self' = time_window self
  /\ tokens self' + inject_Z (Z.of_nat (length nows - k))
     <= tokens self
        + (last_update self' - last_update self)
          * inject_Z (max_requests self) / time_window self.
Proof.
  induction nows as [| now rest IH]; intros self self' k; simpl.
  - intros [= <- <-]. repeat split; try lia.
    change (inject_Z (Z.of_nat (0 - 0))) with 0.
    assert ((last_update self - last_update self)
              * inject_Z (max_requests self) / time_window self == 0) as Hz
      by (unfold Qdiv; ring).
    rewrite Hz. lra.
  - destruct (Scripts_RateLimiter.acquire self now) as [self1 k1 | |] eqn:Ha;
      try discriminate.
    destruct (Scripts_RateLimiter.acquire_all self1 rest) as [self2 k2 | |] eqn:Hb;
      try discriminate.
    intros [= <- <-].
    destruct (scripts_acquire_step _ _ _ _ Ha) as (Hw & Em & Ew & El & Hk & Hstep).
    destruct (IH _ _ _ Hb) as (Hk2 & Em2 & Ew2 & Hrest).
    rewrite Em, Ew, El in Hrest.
    repeat split; try lia; try congruence.
    replace (S (length rest) - (k1 + k2))%nat
      with ((1 - k1) + (length rest - k2))%nat by lia.
    rewrite Nat2Z.inj_add, inject_Z_plus.
    assert ((last_update self2 - last_update self)
              * inject_Z (max_requests self) / time_window self
            == (now - last_update self) * inject_Z (max_requests self) / time_window self
               + (last_update self2 - now)
                 * inject_Z (max_requests self) / time_window self) as Hsum
      by (field; tauto).
    rewrite Hsum. lra.
Qed.

Lemma wait_loop_positive (self : RateLimiter) (nows : list Q) (k : nat) :
  0 < tokens self -> Full_RateLimiter.wait_loop self nows k = Returned self k.
Proof.
  intros Hpos. apply Qle_bool_gt in Hpos.
  destruct nows; simpl; rewrite Hpos; reflexivity.
Qed.







Lemma scripts_throughput_witness :
  exists self' k,
    Scripts_RateLimiter.acquire_all one_per_second [0; 3 # 10; 1] = Returned self' k
    /\ (k <= 3)%nat.
Proof.
  assert (exists s k, Scripts_RateLimiter.acquire_all one_per_second [0; 3 # 10; 1]
                      = Returned s k) as (s & k & Hrun)
    by (do 2 eexists; vm_compute; reflexivity).
  exists s, k. split; [exact Hrun |].
  exact (proj1 (scripts_throughput_bound _ _ _ _ Hrun)).
Defined.

(** *** Bursts *)

Lemma last_cons_default (rest : list Q) :
  forall a d : Q, List.last (a :: rest) d = List.last rest a.
Proof.
  induction rest as [| b rest IH]; intros a d; [reflexivity |].
  change (List.last (a :: b :: rest) d) with (List.last (b :: rest) d).
  rewrite (IH b d), (IH b a). reflexivity.
Qed.

Lemma scripts_acquire_all_last_update (nows : list Q) :
  forall (self self' : RateLimiter) (k : nat),
  Scripts_RateLimiter.acquire_all self nows = Returned self' k ->
  last_update self' = List.last nows (last_update self).
Proof.
  induction nows as [| now rest IH]; intros self self' k Hrun.
  - injection Hrun as <- <-. reflexivity.
  - cbn [Scripts_RateLimiter.acquire_all] in Hrun.
    destruct (Scripts_RateLimiter.acquire self now) as [self1 k1 | |] eqn:Ha;
      try discriminate.
    destruct (Scripts_RateLimiter.acquire_all self1 rest) as [self2 k2 | |] eqn:Hb;
      try discriminate.
    injection Hrun as <- <-.
    destruct (scripts_acquire_step _ _ _ _ Ha) as (_ & _ & _ & El & _).
    rewrite (IH _ _ _ Hb), El, last_cons_default. reflexivity.
Qed.

Lemma last_replicate (n : nat) (x d : Q) : List.last (replicate n x) d = match n with O => d | S _ => x end.
Proof.
  induction n as [| n IH]; [reflexivity |].
  simpl. destruct n; [reflexivity |]. exact IH.
Qed.

Lemma Sorted_replicate (n : nat) (x y : Q) : x <= y -> Sorted Qle (x :: replicate n y).
Proof.
  revert x. induction n as [| n IH]; intros x Hxy; simpl.
  - repeat constructor.
  - constructor; [apply IH; lra | constructor; exact Hxy].
Qed.

(** X10. The scripts copy admits at most [max_requests] callers at one
    instant: of any number of calls made at the same clock reading, at most
    [max_requests] take a token, however long the limiter was idle before. *)
Theorem scripts_burst_bound (self self' : RateLimiter) (T : Q) (n k : nat) :
  well_formed self -> within_capacity self -> last_update self <= T ->
  Scripts_RateLimiter.acquire_all self (replicate n T) = Returned self' k ->
  (k <= n)%nat /\ (Z.of_nat (n - k) <= max_requests self)%Z.
Proof.
  intros Hwf Hin HT Hrun.
  pose proof (scripts_throughput_bound _ _ _ _ Hrun) as (Hk & _ & _ & _).
  rewrite length_replicate in Hk. split; [exact Hk |].
  destruct n as [| n]; [destruct Hwf; simpl; lia |].
  simpl in Hrun.
  destruct (Scripts_RateLimiter.acquire self T) as [self1 k1 | |] eqn:Ha;
    try discriminate.
  destruct (Scripts_RateLimiter.acquire_all self1 (replicate n T)) as [self2 k2 | |]
    eqn:Hb; try discriminate.
  injection Hrun as <- <-.
  destruct (scripts_acquire_within_capacity _ _ _ _ Hwf Hin HT Ha) as (Hwf1 & Hin1 & El1).
  assert (tokens self1 + inject_Z (Z.of_nat (1 - k1)) <= inject_Z (max_requests self)
          /\ (k1 <= 1)%nat /\ max_requests self1 = max_requests self) as (Hfirst & Hk1 & Em).
  { revert Ha. unfold Scripts_RateLimiter.acquire.
    destruct (refill self T) as [s1 | x] eqn:Hr; [| discriminate].
    destruct (refill_fields _ _ _ Hr) as (_ & Em & _ & _ & Et).
    pose proof (py_min_le_l (inject_Z (max_requests self))
                  (tokens self + (T - last_update self)
                                 * inject_Z (max_requests self) / time_window self)) as Hle.
    rewrite <- Et in Hle.
    destruct (Qltb (tokens s1) 1); intros [= <- <-]; repeat split; try lia;
      try assumption.
    - change (inject_Z (Z.of_nat (1 - 1))) with 0. lra.
    - change (inject_Z (Z.of_nat (1 - 0))) with 1. simpl. lra. }
  pose proof (scripts_throughput_bound _ _ _ _ Hb) as (Hk2 & _ & _ & Hrest).
  rewrite length_replicate in Hk2, Hrest.
  assert (within_capacity self2) as [H0 _].
  { apply (scripts_acquire_all_within_capacity (replicate n T) self1 self2 k2);
      try assumption.
    apply Sorted_replicate. rewrite El1. lra. }
  rewrite (scripts_acquire_all_last_update _ _ _ _ Hb), last_replicate, El1 in Hrest.
  assert (match n with O => T | S _ => T end = T) as HT' by (destruct n; reflexivity).
  rewrite HT' in Hrest.
  assert ((T - T) * inject_Z (max_requests self1) / time_window self1 == 0) as Hz
    by (unfold Qdiv; ring).
  rewrite Hz in Hrest.
  assert (inject_Z (Z.of_nat (S n - (k1 + k2))) <= inject_Z (max_requests self)) as Hq.
  { replace (S n - (k1 + k2))%nat with ((1 - k1) + (n - k2))%nat by lia.
    rewrite Nat2Z.inj_add, inject_Z_plus. lra. }
  rewrite <- Zle_Qle in Hq. exact Hq.
Qed.

Lemma scripts_burst_witness :
  exists self' k,
    Scripts_RateLimiter.acquire_all (Scripts_RateLimiter.init 2 1 0) (replicate 5 10)
    = Returned self' k
    /\ (Z.of_nat (5 - k) <= 2)%Z.
Proof.
  assert (exists s k,
            Scripts_RateLimiter.acquire_all (Scripts_RateLimiter.init 2 1 0)
              (replicate 5 10) = Returned s k) as (s & k & Hrun)
    by (do 2 eexists; vm_compute; reflexivity).
  exists s, k. split; [exact Hrun |].
  refine (proj2 (scripts_burst_bound (Scripts_RateLimiter.init 2 1 0) s 10 5 k
                   _ _ _ Hrun)).
  - split; [reflexivity | discriminate].
  - split; discriminate.
  - discriminate.
Defined.

Lemma Full_acquire_all_app (l1 l2 : list (list Q)) :
  forall (self s1 s2 : RateLimiter),
  Full_acquire_all self l1 = Returned s1 0 ->
  Full_acquire_all s1 l2 = Returned s2 0 ->
  Full_acquire_all self (l1 ++ l2) = Returned s2 0.
Proof.
  induction l1 as [| nows l1 IH]; intros self s1 s2; simpl.
  - intros [= <-] H2. exact H2.
  - destruct (Full_RateLimiter.acquire self nows) as [sa ka | |]; try discriminate.
    destruct (Full_acquire_all sa l1) as [sb kb | |] eqn:Hb; try discriminate.
    intros [= <- Hk] H2.
    assert (ka = 0 /\ kb = 0)%nat as [-> ->] by lia.
    rewrite (IH sa sb s2 Hb H2). reflexivity.
Qed.

(** A count of [n] is good for [n] calls at once, none of which reads the
    clock. *)
Lemma full_drain (T : Q) (n : nat) :
  forall self : RateLimiter,
  tokens self == inject_Z (Z.of_nat n) ->
  exists s, Full_acquire_all self (replicate n [T]) = Returned s 0
    /\ tokens s == 0
    /\ max_requests s = max_requests self
    /\ time_window s = time_window self
    /\ last_update s = last_update self.
Proof.
  induction n as [| n IH]; intros self Ht.
  - exists self. repeat split. exact Ht.
  - assert (0 < tokens self) as Hpos.
    { rewrite Ht. change 0 with (inject_Z 0). rewrite <- Zlt_Qlt. lia. }
    destruct (IH (take_token self)) as (s & Hrun & H0 & Em & Ew & El).
    { simpl. rewrite Ht, Nat2Z.inj_succ. unfold Z.succ. rewrite inject_Z_plus.
      change (inject_Z 1) with 1. ring. }
    exists s. simpl. unfold Full_RateLimiter.acquire.
    rewrite wait_loop_positive by exact Hpos. rewrite Hrun. repeat split; assumption.
Qed.



(** ** More on ladder construction *)

Lemma level_price_difference (cfg : GridConfig) (i j : Z) :
  level_price cfg j - level_price cfg i
  == (inject_Z j - inject_Z i)
     * ((upper_price cfg - lower_price cfg) / inject_Z (grid_size cfg - 1)).
Proof. unfold level_price, Qdiv. ring. Qed.

Lemma step_positive (cfg : GridConfig) :
  lower_price cfg < upper_price cfg -> (2 <= grid_size cfg)%Z ->
  0 < (upper_price cfg - lower_price cfg) / inject_Z (grid_size cfg - 1).
Proof.
  intros Hlu HN. unfold Qdiv. apply Qmult_lt_0_compat; [lra |].
  apply Qinv_lt_0_compat. change 0 with (inject_Z 0). rewrite <- Zlt_Qlt. lia.
Qed.

Lemma lookup_level_prices (cfg : GridConfig) (n : Z) (i : nat) (p : Q) :
  map (level_price cfg) (py_range n) !! i = Some p ->
  (i < Z.to_nat n)%nat /\ p = level_price cfg (Z.of_nat i).
Proof.
  intros Hi. change (map ?f ?l) with (f <$> l) in Hi.
  rewrite list_lookup_fmap in Hi.
  destruct (py_range n !! i) as [z |] eqn:Hz; [| discriminate].
  pose proof (lookup_lt_Some _ _ _ Hz) as Hlt. rewrite length_py_range in Hlt.
  rewrite (lookup_py_range n i Hlt) in Hz. injection Hz as <-.
  injection Hi as <-. split; [exact Hlt | reflexivity].
Qed.

(** What [initialize] asks of the exchange, for the proofs below. *)
Lemma initialize_requests {W : Type} `{!ExchangeInterface W}
    (self : GridTradingStrategy) (w : W) :
  raises_only_Exception W -> grid_size (config self) <> 1%Z ->
  exists e',
    initialize self (mkEnv w []) = (Ok tt, e')
    /\ map snd (requests (trace e'))
       = map (level_price (config self)) (py_range (grid_size (config self)))
    /\ Forall2 (fun obs sp => sp.1 = buy <-> sp.2 < obs)
         (observations (trace e')) (requests (trace e')).
Proof.
  intros Hexc HN.
  destruct (initialize_run Hexc self w HN) as (e' & tr & Hrun & Htr & Hlad).
  exists e'. split; [exact Hrun |]. rewrite Htr.
  change (requests (_ :: tr)) with (requests tr).
  change (observations (_ :: tr)) with (observations tr).
  split; [apply (ladder_trace_prices _ _ _ Hlad) | apply (ladder_trace_sides _ _ _ Hlad)].
Qed.





(** X14. Degenerate grid sizes. With [grid_size <= 0] [initialize] reads no
    price and places no order: it logs its opening line and returns. With
    [grid_size = 1] the step is a division by zero: [initialize] raises a
    decimal error after the opening line, before any call to the market or
    the exchange. *)
Theorem degenerate_grid_sizes {W : Type} `{!ExchangeInterface W}
    (self : GridTradingStrategy) (e : env W) :
  ((grid_size (config self) <= 0)%Z ->
   initialize self e
   = (Ok tt, mkEnv (world e)
               (trace e ++ [EvLogInfo (MsgInitializing (symbol (config self)))])))
  /\ (grid_size (config self) = 1%Z ->
      exists x,
        initialize self e
        = (Raise x, mkEnv (world e)
                      (trace e ++ [EvLogInfo (MsgInitializing (symbol (config self)))]))
        /\ (x = DecimalDivisionByZero \/ x = DecimalInvalidOperation)).
Proof.
  unfold initialize, mbind, M_bind, logger_info, emit, lift, decimal_div. split.
  - intros HN.
    destruct (Qeq_bool (inject_Z (grid_size (config self) - 1)) 0) eqn:E.
    { apply Qeq_bool_iff in E. change 0 with (inject_Z 0) in E.
      apply (proj1 (inject_Z_injective _ _)) in E. lia. }
    unfold py_range. replace (Z.to_nat (grid_size (config self))) with 0%nat by lia.
    reflexivity.
  - intros HN. rewrite HN. simpl.
    destruct (Qeq_bool (upper_price (config self) - lower_price (config self)) 0);
      eexists; split; try reflexivity; auto.
Qed.

Lemma degenerate_grid_sizes_witness :
  initialize
    {| config := mkGridConfig "BTC-USD" 0 200 100 1; price_update_interval := 1;
       active_orders := ∅; is_running := false |} (mkEnv steady_market [])
  = (Ok tt, mkEnv steady_market [EvLogInfo (MsgInitializing "BTC-USD")]).
Proof.
  apply (proj1 (degenerate_grid_sizes
                  {| config := mkGridConfig "BTC-USD" 0 200 100 1;
                     price_update_interval := 1;
                     active_orders := ∅; is_running := false |}
                  (mkEnv steady_market []))).
  discriminate.
Defined.



(** ** More on concurrent callers *)

(** X16. Mutual exclusion: in every state that callers of a fresh limiter can
    reach, with either copy of [acquire], at most one caller is inside the
    [async with] block, refilling, deciding or asleep. *)
Theorem at_most_one_caller_inside (v : version) (rl : RateLimiter) (now : Q)
    (n : nat) (s : system) (i j : nat) :
  reachable v (fresh_system rl now n) s ->
  inside s i -> inside s j -> i = j.
Proof.
  intros Hreach Hi Hj.
  pose proof (reachable_invariant _ _ _ (fresh_system_invariant rl now n) Hreach)
    as Hinv.
  apply Hinv in Hi. apply Hinv in Hj. congruence.
Qed.

Lemma at_most_one_caller_witness :
  exists s,
    reachable scripts_copy (fresh_system one_per_second 0 3) s
    /\ inside s 1%nat
    /\ forall j, inside s j -> 1%nat = j.
Proof.
  destruct (second_caller_sleeps_with_lock scripts_copy) as (s & Hrun & Hpc & _).
  exists s.
  pose proof (run_schedule_reachable _ _ _ _ Hrun) as Hreach.
  assert (inside s 1%nat) as Hin by (right; eexists; exact Hpc).
  split; [exact Hreach |]. split; [exact Hin |].
  intros j Hj.
  exact (at_most_one_caller_inside scripts_copy one_per_second 0 3 s 1 j Hreach Hin Hj).
Defined.

Lemma move_lock_kept (s : system) (i : nat) rl p :
  lock_held_by_insider s -> (i < length (tasks s))%nat ->
  (p = Critical \/ exists wake, p = Sleeping wake) ->
  lock_held_by_insider (move s i rl (lock s) p).
Proof.
  intros Hinv Hi Hp k Hk. simpl in Hk. unfold inside.
  destruct (decide (i = k)) as [<- | Hik].
  - rewrite lookup_move_same by exact Hi.
    destruct Hp as [-> | [wake ->]]; [left | right; exists wake]; reflexivity.
  - rewrite lookup_move_other by exact Hik. apply Hinv. exact Hk.
Qed.

Lemma move_lock_released (s : system) (i : nat) rl p :
  lock_held_by_insider (move s i rl None p).
Proof. intros k Hk. discriminate. Qed.

Lemma task_step_lock_held (v : version) (i : nat) (s s' : system) :
  lock_held_by_insider s -> task_step v i s = Some s' -> lock_held_by_insider s'.
Proof.
  intros Hinv. unfold task_step.
  destruct (tasks s !! i) as [[| | wake | |] |] eqn:Hpc; try discriminate;
    pose proof (lookup_lt_Some _ _ _ Hpc) as Hi.
  - destruct (lock s) eqn:Hl; [discriminate |]. intros [= <-].
    intros k Hk. simpl in Hk. injection Hk as <-. left.
    apply lookup_move_same. exact Hi.
  - intros [= <-]. unfold critical_step. destruct v.
    + destruct (refill (limiter s) (clock s)) as [rl | x];
        [| apply move_lock_released].
      destruct (Qltb (tokens rl) 1); [| apply move_lock_released].
      apply move_lock_kept; eauto.
    + destruct (Qle_bool (tokens (limiter s)) 0); [| apply move_lock_released].
      destruct (refill (limiter s) (clock s)) as [rl | x];
        [| apply move_lock_released].
      destruct (Qle_bool (tokens rl) 0); apply move_lock_kept; eauto.
  - destruct (Qle_bool wake (clock s)); [| discriminate].
    intros [= <-]. unfold wake_step. destruct v.
    + apply move_lock_released.
    + apply move_lock_kept; eauto.
Qed.

Lemma reachable_lock_held (v : version) (s0 s : system) :
  lock_held_by_insider s0 -> reachable v s0 s -> lock_held_by_insider s.
Proof.
  intros Hinv Hreach. induction Hreach as [| s0 s1 s Hstep _ IH]; [assumption |].
  apply IH. destruct Hstep as [i s0 s1 Ht | d s0 Hd].
  - eapply task_step_lock_held; eassumption.
  - exact Hinv.
Qed.

(** X17. The lock does not leak: in every reachable state the lock is either
    free or in the hands of a caller that is inside the block. A caller that
    has returned or whose [acquire] has raised (a zero [time_window]) has given
    it back, so when no caller is inside the lock is free. *)
Theorem lock_is_given_back (v : version) (rl : RateLimiter) (now : Q) (n : nat)
    (s : system) :
  reachable v (fresh_system rl now n) s ->
  (forall i, lock s = Some i -> inside s i)
  /\ ((forall i, ~ inside s i) -> lock s = None).
Proof.
  intros Hreach.
  assert (lock_held_by_insider (fresh_system rl now n)) as H0
    by (intros i Hi; discriminate).
  pose proof (reachable_lock_held _ _ _ H0 Hreach) as Hinv.
  split; [exact Hinv |].
  intros Hnone. destruct (lock s) as [i |] eqn:Hl; [| reflexivity].
  destruct (Hnone i (Hinv i Hl)).
Qed.

Lemma lock_is_given_back_witness :
  exists s,
    reachable scripts_copy (fresh_system (Scripts_RateLimiter.init 1 0 0) 0 2) s
    /\ tasks s !! 0%nat = Some (Failed ZeroDivisionError)
    /\ lock s = None.
Proof.
  assert (exists s,
            run_schedule scripts_copy [0; 0]%nat
              (fresh_system (Scripts_RateLimiter.init 1 0 0) 0 2) = Some s
            /\ tasks s !! 0%nat = Some (Failed ZeroDivisionError)
            /\ forall i, ~ inside s i) as (s & Hrun & Hpc & Hnone).
  { eexists. split; [vm_compute; reflexivity |]. split; [reflexivity |].
    intros [| [| i]] [Hc | [wake Hs]]; discriminate. }
  exists s.
  pose proof (run_schedule_reachable _ _ _ _ Hrun) as Hreach.
  split; [exact Hreach |]. split; [exact Hpc |].
  exact (proj2 (lock_is_given_back scripts_copy _ 0 2 s Hreach) Hnone).
Defined.

Lemma limiter_sane_tick (low d : Q) (s : system) :
  0 <= d -> limiter_sane low s -> limiter_sane low (tick d s).
Proof.
  intros Hd (Hwf & Hl & Hc & Hu). unfold limiter_sane. simpl.
  repeat split; try assumption; try apply Hwf. lra.
Qed.

Lemma limiter_sane_move (low : Q) (s : system) (i : nat) rl h p :
  well_formed rl -> low <= tokens rl -> tokens rl <= inject_Z (max_requests rl) ->
  last_update rl <= clock s ->
  limiter_sane low (move s i rl h p).
Proof. intros Hwf Hl Hc Hu. unfold limiter_sane. simpl. auto. Qed.

Lemma refill_sane (low : Q) (s : system) (rl : RateLimiter) :
  low <= 0 ->
  limiter_sane low s -> refill (limiter s) (clock s) = Ok rl ->
  well_formed rl /\ low <= tokens rl /\ tokens rl <= inject_Z (max_requests rl)
  /\ last_update rl <= clock s.
Proof.
  intros Hlow (Hwf & Hl & Hc & Hu) Hr.
  destruct (refill_fields _ _ _ Hr) as (_ & Em & Ew & El & Et).
  destruct Hwf as [Hw Hm].
  assert (0 <= inject_Z (max_requests (limiter s))) as Hm'
    by (change 0 with (inject_Z 0); rewrite <- Zle_Qle; exact Hm).
  assert (0 <= (clock s - last_update (limiter s))
               * inject_Z (max_requests (limiter s)) / time_window (limiter s)) as Hadd.
  { apply Qdiv_nonneg; [| exact Hw]. apply Qmult_le_0_compat; [lra | exact Hm']. }
  unfold well_formed. rewrite Em, Ew, Et, El. repeat split; try assumption.
  - apply py_min_ge; lra.
  - apply py_min_le_l.
  - apply Qle_refl.
Qed.

Lemma task_step_sane_scripts (i : nat) (s s' : system) :
  limiter_sane 0 s -> task_step scripts_copy i s = Some s' -> limiter_sane 0 s'.
Proof.
  intros Hs. pose proof Hs as (Hwf & Hl & Hc & Hu). unfold task_step.
  destruct (tasks s !! i) as [[| | wake | |] |]; try discriminate.
  - destruct (lock s); [discriminate |]. intros [= <-].
    apply limiter_sane_move; assumption.
  - intros [= <-]. unfold critical_step.
    destruct (refill (limiter s) (clock s)) as [rl | x] eqn:Hr;
      [| apply limiter_sane_move; assumption].
    destruct (refill_sane 0 s rl ltac:(lra) Hs Hr) as (Hwf1 & Hl1 & Hc1 & Hu1).
    destruct (Qltb (tokens rl) 1) eqn:E.
    + apply limiter_sane_move; assumption.
    + apply Qltb_ge in E. apply limiter_sane_move; simpl; try assumption; lra.
  - destruct (Qle_bool wake (clock s)); [| discriminate]. intros [= <-].
    apply limiter_sane_move; assumption.
Qed.

Lemma task_step_sane_full (i : nat) (s s' : system) :
  limiter_sane (- (1)) s -> task_step full_copy i s = Some s' -> limiter_sane (- (1)) s'.
Proof.
  intros Hs. pose proof Hs as (Hwf & Hl & Hc & Hu). unfold task_step.
  destruct (tasks s !! i) as [[| | wake | |] |]; try discriminate.
  - destruct (lock s); [discriminate |]. intros [= <-].
    apply limiter_sane_move; assumption.
  - intros [= <-]. unfold critical_step.
    destruct (Qle_bool (tokens (limiter s)) 0) eqn:E0.
    + destruct (refill (limiter s) (clock s)) as [rl | x] eqn:Hr;
        [| apply limiter_sane_move; assumption].
      destruct (refill_sane (- (1)) s rl ltac:(lra) Hs Hr) as (Hwf1 & Hl1 & Hc1 & Hu1).
      destruct (Qle_bool (tokens rl) 0); apply limiter_sane_move; assumption.
    + apply Qle_bool_gt in E0. apply limiter_sane_move; simpl; try assumption; lra.
  - destruct (Qle_bool wake (clock s)); [| discriminate]. intros [= <-].
    apply limiter_sane_move; assumption.
Qed.

(** X18. With any number of concurrent callers the token count of the scripts
    copy stays between zero and the capacity, and that of the full copy stays
    above [-1] and at most the capacity, in every reachable state of a
    limiter that starts within its capacity. *)
Theorem concurrent_token_bounds (v : version) (rl : RateLimiter) (now : Q) (n : nat)
    (s : system) :
  well_formed rl -> within_capacity rl -> last_update rl <= now ->
  reachable v (fresh_system rl now n) s ->
  tokens (limiter s) <= inject_Z (max_requests (limiter s))
  /\ match v with
     | scripts_copy => 0 <= tokens (limiter s)
     | full_copy => - (1) <= tokens (limiter s)
     end.
Proof.
  intros Hwf [H0 Hc] Hu Hreach.
  set (low := match v with scripts_copy => 0 | full_copy => - (1) end).
  assert (limiter_sane low s) as (_ & Hl & Hc' & _).
  { assert (limiter_sane low (fresh_system rl now n)) as Hinit.
    { unfold limiter_sane. simpl. repeat split; try assumption; try apply Hwf.
      unfold low. destruct v; lra. }
    clear - Hinit Hreach.
    induction Hreach as [| s0 s1 s Hstep _ IH]; [assumption |].
    apply IH. destruct Hstep as [i s0 s1 Ht | d s0 Hd].
    - unfold low in *. destruct v;
        [eapply task_step_sane_scripts | eapply task_step_sane_full]; eassumption.
    - apply limiter_sane_tick; assumption. }
  split; [exact Hc' |]. unfold low in Hl. destruct v; exact Hl.
Qed.

Lemma concurrent_token_bounds_witness :
  exists s,
    reachable full_copy (fresh_system one_per_second 0 3) s
    /\ - (1) <= tokens (limiter s).
Proof.
  destruct (second_caller_sleeps_with_lock full_copy) as (s & Hrun & _).
  exists s.
  pose proof (run_schedule_reachable _ _ _ _ Hrun) as Hreach.
  split; [exact Hreach |].
  refine (proj2 (concurrent_token_bounds full_copy one_per_second 0 3 s _ _ _ Hreach)).
  - split; [reflexivity | discriminate].
  - split; discriminate.
  - discriminate.
Defined.

(** ** The exchange classes and the command line *)





(** ** Database sessions *)

Section Sessions.
Import database.
Context {W A : Type} `{!SessionInterface W}.

(** X22. A session is always closed, once, and last. Whatever the body and
    the database do, after the body's own calls the context manager makes one
    of four sequences of calls, each ending in the only [close]; it starts
    with [commit] exactly when the body returned normally. *)
Theorem session_always_closed (catches : py_exception -> bool) (body : DB W A)
    (st : db_env W) :
  exists tail,
    db_calls (with_session catches body st).2
    = db_calls (body (mkDb (db_world st) (db_calls st ++ [SessionLocal]))).2 ++ tail
    /\ (tail = [commit; close] \/ tail = [commit; rollback; close]
        \/ tail = [rollback; close] \/ tail = [close])
    /\ (head tail = Some commit
        <-> exists a, (body (mkDb (db_world st) (db_calls st ++ [SessionLocal]))).1 = Ok a).
Proof.
  unfold with_session, call.
  destruct (body (mkDb (db_world st) (db_calls st ++ [SessionLocal]))) as [[a | x] sb];
    simpl.
  - destruct (session_commit (db_world sb)) as [[[] | y] wc]; simpl.
    + destruct (session_close wc) as [[[] | z] wz]; simpl;
        exists [commit; close]; rewrite <- app_assoc; repeat split; eauto.
    + destruct (catches y); simpl.
      * destruct (session_rollback wc) as [[[] | y'] wr]; simpl;
          destruct (session_close wr) as [[[] | z] wz]; simpl;
          exists [commit; rollback; close]; rewrite <- !app_assoc;
          repeat split; eauto.
      * destruct (session_close wc) as [[[] | z] wz]; simpl;
          exists [commit; close]; rewrite <- app_assoc; repeat split; eauto.
  - destruct (catches x); simpl.
    + destruct (session_rollback (db_world sb)) as [[[] | y'] wr]; simpl;
        destruct (session_close wr) as [[[] | z] wz]; simpl;
        exists [rollback; close]; rewrite <- app_assoc;
        (split; [reflexivity |]); (split; [tauto |]);
        (split; [discriminate | intros [a Ha]; discriminate]).
    + destruct (session_close (db_world sb)) as [[[] | z] wz]; simpl;
        exists [close];
        (split; [reflexivity |]); (split; [tauto |]);
        (split; [discriminate | intros [a Ha]; discriminate]).
Qed.

(** X23. A session never swallows a failure, and the two copies differ on
    what they roll back. When the body raises, both context managers raise;
    the scripts copy rolls back whatever was raised, the full copy only for an
    [Exception]: after a keyboard interrupt or a cancellation it closes the
    session with neither commit nor rollback. *)
Theorem failed_body_is_rolled_back (body : DB W A) (st sb : db_env W)
    (x : py_exception) :
  body (mkDb (db_world st) (db_calls st ++ [SessionLocal])) = (Raise x, sb) ->
  (exists y, (get_session body st).1 = Raise y)
  /\ (exists y, (session body st).1 = Raise y)
  /\ db_calls (get_session body st).2
     = db_calls sb ++ (if is_Exception x then [rollback; close] else [close])
  /\ db_calls (session body st).2 = db_calls sb ++ [rollback; close].
Proof.
  intros Hbody. unfold get_session, session, with_session, call. rewrite Hbody.
  destruct (is_Exception x); simpl;
    destruct (session_rollback (db_world sb)) as [[[] | y'] wr]; simpl;
    destruct (session_close wr) as [[[] | z] wz]; simpl;
    destruct (session_close (db_world sb)) as [[[] | z'] wz']; simpl;
    rewrite <- ?app_assoc; repeat split; eauto.
Qed.

(** X24. The body's result comes back, and the work is committed, exactly
    when nothing failed: the context manager returns [a] if and only if the
    body returned [a], [commit] succeeded and [close] succeeded. *)
Theorem session_returns_iff_committed (catches : py_exception -> bool)
    (body : DB W A) (st : db_env W) (a : A) :
  (with_session catches body st).1 = Ok a
  <-> exists sb wc wz,
        body (mkDb (db_world st) (db_calls st ++ [SessionLocal])) = (Ok a, sb)
        /\ session_commit (db_world sb) = (Ok tt, wc)
        /\ session_close wc = (Ok tt, wz).
Proof.
  unfold with_session, call.
  destruct (body (mkDb (db_world st) (db_calls st ++ [SessionLocal]))) as [[a' | x] sb];
    simpl.
  - destruct (session_commit (db_world sb)) as [[[] | y] wc] eqn:Hc; simpl.
    + destruct (session_close wc) as [[[] | z] wz] eqn:Hz; simpl.
      * split.
        -- intros [= ->]. exists sb, wc, wz. rewrite Hc. auto.
        -- intros (sb' & wc' & wz' & [= -> <-] & _). reflexivity.
      * split; [discriminate |].
        intros (sb' & wc' & wz' & [= -> <-] & Hc' & Hz').
        rewrite Hc in Hc'. injection Hc' as <-. rewrite Hz in Hz'. discriminate.
    + split.
      * destruct (catches y); simpl.
        -- destruct (session_rollback wc) as [[[] | y'] wr]; simpl;
             destruct (session_close wr) as [[[] | z] wz]; simpl; discriminate.
        -- destruct (session_close wc) as [[[] | z] wz]; simpl; discriminate.
      * intros (sb' & wc' & wz' & [= -> <-] & Hc' & _).
        rewrite Hc in Hc'. discriminate.
  - split.
    + destruct (catches x); simpl.
      * destruct (session_rollback (db_world sb)) as [[[] | y'] wr]; simpl;
          destruct (session_close wr) as [[[] | z] wz]; simpl; discriminate.
      * destruct (session_close (db_world sb)) as [[[] | z] wz]; simpl; discriminate.
    + intros (sb' & wc' & wz' & [=] & _).
Qed.

End Sessions.

Lemma failed_body_witness :
  database.db_calls
    (database.get_session (W := database.healthy_db) (A := unit)
       (fun st => (Raise KeyboardInterrupt, st)) (database.mkDb database.Healthy [])).2
  = [database.SessionLocal; database.close].
Proof.
  exact (proj1 (proj2 (proj2
           (failed_body_is_rolled_back (W := database.healthy_db) (A := unit)
              (fun st => (Raise KeyboardInterrupt, st))
              (database.mkDb database.Healthy [])
              (database.mkDb database.Healthy [database.SessionLocal])
              KeyboardInterrupt eq_refl)))).
Defined.

(** ** Loading the configuration *)

Section LoadConfig.
Import load_config.

(** X25. The environment wins over the file. With [EXCHANGE_API_KEY] set and
    an [exchange] section in the file, the dictionary handed to validation has
    the variable's value as [api_key]; every other section, and every field of
    [exchange] other than the key and the secret, is as in the file. *)
Theorem environment_overrides_file (environ : gmap string string)
    (d : gmap string yaml_value) (m : gmap string yaml_scalar) (key : string) :
  environ !! "EXCHANGE_API_KEY" = Some key -> key <> "" ->
  d !! "exchange" = Some (YMap m) ->
  exists d' m',
    apply_overrides environ (YDocument d) = inr (YDocument d')
    /\ d' !! "exchange" = Some (YMap m')
    /\ m' !! "api_key" = Some (YStr key)
    /\ (forall section, section <> "exchange" -> d' !! section = d !! section)
    /\ (forall field, field <> "api_key" -> field <> "api_secret" ->
          m' !! field = m !! field).
Proof.
  intros Hkey Hne Hex. unfold apply_overrides, override at 1.
  rewrite Hkey. unfold truthy at 1.
  destruct (decide (key = "")) as [? | _]; [contradiction |].
  rewrite Hex. unfold override.
  destruct (truthy (environ !! "EXCHANGE_API_SECRET")) as [secret |].
  - rewrite lookup_insert_eq.
    exists (<["exchange" := YMap (<["api_secret" := YStr secret]>
                                    (<["api_key" := YStr key]> m))]>
              (<["exchange" := YMap (<["api_key" := YStr key]> m)]> d)),
           (<["api_secret" := YStr secret]> (<["api_key" := YStr key]> m)).
    split; [reflexivity |]. split; [apply lookup_insert_eq |]. split; [| split].
    + rewrite lookup_insert_ne by discriminate. apply lookup_insert_eq.
    + intros section Hs. rewrite !lookup_insert_ne by congruence. reflexivity.
    + intros field H1 H2. rewrite !lookup_insert_ne by congruence. reflexivity.
  - exists (<["exchange" := YMap (<["api_key" := YStr key]> m)]> d),
           (<["api_key" := YStr key]> m).
    split; [reflexivity |]. split; [apply lookup_insert_eq |]. split; [| split].
    + apply lookup_insert_eq.
    + intros section Hs. rewrite lookup_insert_ne by congruence. reflexivity.
    + intros field H1 H2. rewrite lookup_insert_ne by congruence. reflexivity.
Qed.

(** X26. When neither variable is set, or set to the empty string, the
    dictionary goes to validation untouched, whatever it is. When one is set
    and the file has no [exchange] section the load fails with a [KeyError]
    before validation; on an empty file, or on an [exchange] entry that is not
    a mapping, with a [TypeError]. *)
Theorem override_failures (environ : gmap string string) (doc : yaml_document) :
  (truthy (environ !! "EXCHANGE_API_KEY") = None ->
   truthy (environ !! "EXCHANGE_API_SECRET") = None ->
   apply_overrides environ doc = inr doc)
  /\ (truthy (environ !! "EXCHANGE_API_KEY") <> None
      \/ truthy (environ !! "EXCHANGE_API_SECRET") <> None ->
      (doc = YEmpty -> apply_overrides environ doc = inl NotSubscriptable)
      /\ (forall d, doc = YDocument d -> d !! "exchange" = None ->
            apply_overrides environ doc = inl (KeyError "exchange"))
      /\ (forall d v, doc = YDocument d -> d !! "exchange" = Some (YScalar v) ->
            apply_overrides environ doc = inl NotSubscriptable)).
Proof.
  unfold apply_overrides, override. split.
  - intros -> ->. reflexivity.
  - intros Hset. repeat split.
    + intros ->.
      destruct (truthy (environ !! "EXCHANGE_API_KEY")); [reflexivity |].
      destruct (truthy (environ !! "EXCHANGE_API_SECRET")); [reflexivity |].
      destruct Hset; contradiction.
    + intros d -> Hex. rewrite Hex.
      destruct (truthy (environ !! "EXCHANGE_API_KEY")); [reflexivity |].
      destruct (truthy (environ !! "EXCHANGE_API_SECRET")); [| destruct Hset; contradiction].
      rewrite Hex. reflexivity.
    + intros d v -> Hex. rewrite Hex.
      destruct (truthy (environ !! "EXCHANGE_API_KEY")); [reflexivity |].
      destruct (truthy (environ !! "EXCHANGE_API_SECRET")); [| destruct Hset; contradiction].
      rewrite Hex. reflexivity.
Qed.

End LoadConfig.

Lemma environment_overrides_witness :
  exists d' m',
    load_config.apply_overrides {[ "EXCHANGE_API_KEY" := "k-env" ]}
      (load_config.YDocument
         {[ "exchange" := load_config.YMap {[ "api_key" := load_config.YStr "k-file" ]} ]})
    = inr (load_config.YDocument d')
    /\ d' !! "exchange" = Some (load_config.YMap m')
    /\ m' !! "api_key" = Some (load_config.YStr "k-env").
Proof.
  pose (environ := ({[ "EXCHANGE_API_KEY" := "k-env" ]} : gmap string string)).
  pose (m := ({[ "api_key" := load_config.YStr "k-file" ]}
              : gmap string load_config.yaml_scalar)).
  pose (d := ({[ "exchange" := load_config.YMap m ]}
              : gmap string load_config.yaml_value)).
  assert (environ !! "EXCHANGE_API_KEY" = Some "k-env") as H1
    by (vm_compute; reflexivity).
  assert (d !! "exchange" = Some (load_config.YMap m)) as H3
    by (apply lookup_singleton_eq).
  destruct (environment_overrides_file environ d m "k-env" H1 ltac:(discriminate) H3)
    as (d' & m' & Hrun & Hex & Hkey & _).
  exists d', m'. split; [exact Hrun |]. split; [exact Hex | exact Hkey].
Defined.

Lemma override_failures_witness :
  load_config.apply_overrides {[ "EXCHANGE_API_KEY" := "k-env" ]}
    (load_config.YDocument ∅)
  = inl (load_config.KeyError "exchange").
Proof.
  pose (environ := ({[ "EXCHANGE_API_KEY" := "k-env" ]} : gmap string string)).
  assert (load_config.truthy (environ !! "EXCHANGE_API_KEY") <> None) as Hset
    by (vm_compute; discriminate).
  exact (proj1 (proj2 (proj2 (override_failures environ (load_config.YDocument ∅))
                         (or_introl Hset)))
           ∅ eq_refl (lookup_empty _)).
Defined.
